(** * uagent: the Unstructured Finance Analysis Agent (src/uagent/main.py)

    A shallow embedding of the FastAPI service of [main.py]: the start-up
    code of the module, the request model [AnalysisRequest], the handler
    [analyze_unstructured_data] behind [POST /analyze] and the health
    check [read_root] behind [GET /].

    Conventions of the embedding.
    - A Python [str] is the list of its code points ([pystr]).
    - A Python exception is a value of [exception]; the type stands for
      the instances of Python's [Exception] class, which is what the
      handler's [except Exception] clause catches.
    - Effectful code runs in the monad [M]: a state of the outside world
      (the calls received by the generation provider, the lines printed)
      is threaded through, and a computation either returns or raises.
    - What the interpreter leaves open is a parameter of the service, the
      record [Interpreter]: the levels that its recursion limit still
      allows to the decoder and to the encoder when the handler calls
      them, and [float.__repr__].  The calls that the handler makes itself
      are taken to have the levels they need.
    - The generation provider is a parameter of the handler: any function
      from the history of calls, the prompt and the generation
      configuration to a response or an exception.
    - [json.dumps] and [json.loads] are the interpreter's library: they are
      modelled here after the [json] package of CPython 3.11 so that the
      handler can be run on concrete inputs, with the digit limit of [int]
      and the recursion limit.  A float is kept as the literal it was read
      from; whether it is finite is decided on the literal, its [repr] is
      the interpreter's.
    - The objects of the web framework ([JSONResponse], [HTTPException],
      the validation of the request body against [AnalysisRequest]) are
      modelled as far as the handler uses them.  A [JSONResponse] renders
      its content when it is built, as Starlette does, and raises what the
      rendering raises.  The responses that the framework builds itself,
      for a body that fails validation and for an [HTTPException], are
      given by their status and their content. *)

From Stdlib Require Import String Ascii ZArith NArith List Lia DecimalString.
From stdpp Require Import base list strings gmap.

Set Default Proof Using "Type".
Set Warnings "-register-all".

(** ** Python strings *)

Abbreviation pystr := (list N).

(** [u s] is the Python string literal spelled by [s]. *)
Definition u (s : string) : pystr :=
  map N_of_ascii (list_ascii_of_string s).
Arguments u s%_string.

(** The characters that a Rocq string literal does not spell. *)
Definition nl : pystr := [10%N].
Definition dq : pystr := [34%N].

(** [sep.join(parts)] *)
Fixpoint join (sep : pystr) (parts : list pystr) : pystr :=
  match parts with
  | [] => []
  | [p] => p
  | p :: ps => p ++ sep ++ join sep ps
  end.

(** [repr] of an [int], and [str] of a position. *)
Definition int_repr (z : Z) : pystr := u (NilZero.string_of_int (Z.to_int z)).
Definition nat_repr (n : nat) : pystr := int_repr (Z.of_nat n).

(** ** JSON-compatible Python values

    [None], [bool], [int], [float], [str], [list] and [dict] with string
    keys.  A [dict] keeps its insertion order; it is the list of its items.
    The type of floats is a parameter: the schema of the module holds none
    ([Empty_set]), a decoded document holds [pyfloat]s. *)

Inductive json (F : Type) : Type :=
| JNull
| JBool (b : bool)
| JInt (z : Z)
| JFloat (f : F)
| JStr (s : pystr)
| JArr (l : list (json F))
| JObj (d : list (pystr * json F)).
Arguments JNull {F}.
Arguments JBool {F} b.
Arguments JInt {F} z.
Arguments JFloat {F} f.
Arguments JStr {F} s.
Arguments JArr {F} l.
Arguments JObj {F} d.

(** [d.get(k)] on the items of a dict. *)
Fixpoint dict_get {A : Type} (k : pystr) (d : list (pystr * A)) : option A :=
  match d with
  | [] => None
  | (k', v) :: d' => if decide (k' = k) then Some v else dict_get k d'
  end.

(** [d[k] = v]: an existing key keeps its place, a new one goes last. *)
Fixpoint dict_set {A : Type} (k : pystr) (v : A) (d : list (pystr * A))
  : list (pystr * A) :=
  match d with
  | [] => [(k, v)]
  | (k', v') :: d' =>
      if decide (k' = k) then (k', v) :: d' else (k', v') :: dict_set k v d'
  end.

(** [dict(pairs)] *)
Definition dict_of_pairs {A : Type} (pairs : list (pystr * A))
  : list (pystr * A) :=
  fold_left (fun d kv => dict_set kv.1 kv.2 d) pairs [].

(** ** [json.dumps] with its default settings
    ([ensure_ascii=True], a comma and a colon each followed by a space as
    separators) *)

Definition hex_digit (n : N) : N :=
  if (n <? 10)%N then (48 + n)%N else (87 + n)%N.

(** ['\\u%04x' % n] *)
Definition u_escape (n : N) : pystr :=
  u "\u" ++ [hex_digit (N.land (N.shiftr n 12) 15);
             hex_digit (N.land (N.shiftr n 8) 15);
             hex_digit (N.land (N.shiftr n 4) 15);
             hex_digit (N.land n 15)].

(** The replacement of one character in [py_encode_basestring_ascii]. *)
Definition escape_ascii_char (c : N) : pystr :=
  if decide (c = 92%N) then u "\\"
  else if decide (c = 34%N) then u "\" ++ dq
  else if decide (c = 8%N) then u "\b"
  else if decide (c = 12%N) then u "\f"
  else if decide (c = 10%N) then u "\n"
  else if decide (c = 13%N) then u "\r"
  else if decide (c = 9%N) then u "\t"
  else if ((32 <=? c) && (c <=? 126))%N then [c]
  else if (c <? 65536)%N then u_escape c
  else
    let n := (c - 65536)%N in
    u_escape (N.lor 55296 (N.land (N.shiftr n 10) 1023))
    ++ u_escape (N.lor 56320 (N.land n 1023)).

Definition encode_basestring_ascii (s : pystr) : pystr :=
  dq ++ concat (map escape_ascii_char s) ++ dq.

Fixpoint json_dumps {F : Type} (float_repr : F -> pystr) (o : json F) : pystr :=
  match o with
  | JNull => u "null"
  | JBool true => u "true"
  | JBool false => u "false"
  | JInt z => int_repr z
  | JFloat f => float_repr f
  | JStr s => encode_basestring_ascii s
  | JArr l => u "[" ++ join (u ", ") (map (json_dumps float_repr) l) ++ u "]"
  | JObj d =>
      u "{"
      ++ join (u ", ")
           (map (fun kv =>
                   encode_basestring_ascii kv.1 ++ u ": "
                   ++ json_dumps float_repr kv.2) d)
      ++ u "}"
  end.

(** ** The module's constants *)

(** A value that holds no float: dicts, lists and strings only. *)
Definition schema_value := json Empty_set.

Definition no_float_repr (f : Empty_set) : pystr := match f with end.

Definition JSON_OUTPUT_SCHEMA : schema_value :=
  JObj
    [(u "type", JStr (u "object"));
     (u "properties",
       JObj
         [(u "summary",
            JObj
              [(u "type", JStr (u "string"));
               (u "description",
                 JStr (u "A brief, one-paragraph summary of the provided text."))]);
          (u "key_entities",
            JObj
              [(u "type", JStr (u "array"));
               (u "description",
                 JStr (u "A list of key financial entities or terms mentioned."));
               (u "items", JObj [(u "type", JStr (u "string"))])]);
          (u "sentiment",
            JObj
              [(u "type", JStr (u "string"));
               (u "description",
                 JStr (u "Overall sentiment (Positive, Negative, Neutral)."))]);
          (u "recommendations",
            JObj
              [(u "type", JStr (u "array"));
               (u "description",
                 JStr (u "A list of 2-3 actionable financial recommendations based on the text."));
               (u "items", JObj [(u "type", JStr (u "string"))])]);
          (u "potential_risks",
            JObj
              [(u "type", JStr (u "array"));
               (u "description",
                 JStr (u "A list of potential risks or downsides identified from the text."));
               (u "items", JObj [(u "type", JStr (u "string"))])])]);
     (u "required",
       JArr
         [JStr (u "summary"); JStr (u "key_entities"); JStr (u "sentiment");
          JStr (u "recommendations"); JStr (u "potential_risks")])].

(** The default of [AnalysisRequest.context]. *)
Definition default_context : pystr :=
  u "rural loans and government schemes in India".

(** ** Exceptions

    The instances of [Exception] that the service meets.  [OtherError]
    stands for an instance of any other subclass (the errors of the
    provider's client library: network, quota, authentication, timeout),
    with its class name and the text that [str] gives for it. *)

Inductive exception : Type :=
| ValueError (msg : pystr)
| JSONDecodeError (msg doc : pystr) (pos : nat)
| RecursionError (msg : pystr)
| UnicodeEncodeError (encoding object : pystr) (start stop : nat)
    (reason : pystr)
| HTTPException (status_code : Z) (detail : pystr)
| OtherError (class_name message : pystr).

(** The character of an encoding error as its message writes it. *)
Definition char_escape (c : N) : pystr :=
  if (c <? 256)%N then
    u "\x" ++ [hex_digit (N.land (N.shiftr c 4) 15); hex_digit (N.land c 15)]
  else if (c <? 65536)%N then u_escape c
  else
    u "\U"
    ++ map (fun i => hex_digit (N.land (N.shiftr c (4 * i)) 15))
         [7; 6; 5; 4; 3; 2; 1; 0]%N.

(** [doc.count('\n', 0, pos)] and the column of [pos], as
    [JSONDecodeError.__init__] computes them. *)
Fixpoint line_col (doc : pystr) (pos : nat) (lineno colno : nat) : nat * nat :=
  match pos, doc with
  | S pos', c :: doc' =>
      if decide (c = 10%N) then line_col doc' pos' (S lineno) 1
      else line_col doc' pos' lineno (S colno)
  | _, _ => (lineno, colno)
  end.

(** [str(e)] *)
Definition str (e : exception) : pystr :=
  match e with
  | ValueError msg => msg
  | JSONDecodeError msg doc pos =>
      let '(lineno, colno) := line_col doc pos 1 1 in
      msg ++ u ": line " ++ nat_repr lineno ++ u " column " ++ nat_repr colno
      ++ u " (char " ++ nat_repr pos ++ u ")"
  | RecursionError msg => msg
  | UnicodeEncodeError encoding object start stop reason =>
      if decide (stop = S start) then
        u "'" ++ encoding ++ u "' codec can't encode character '"
        ++ char_escape (nth start object 0%N) ++ u "' in position "
        ++ nat_repr start ++ u ": " ++ reason
      else
        u "'" ++ encoding ++ u "' codec can't encode characters in position "
        ++ nat_repr start ++ u "-" ++ nat_repr (stop - 1) ++ u ": " ++ reason
  | HTTPException status_code detail => int_repr status_code ++ u ": " ++ detail
  | OtherError _ message => message
  end.

(** ** [json.loads] with its default settings

    The decoder follows CPython's [json.decoder] and its scanner: the
    grammar of RFC 8259 extended with the constants [NaN], [Infinity] and
    [-Infinity], strings decoded in strict mode, an object with a repeated
    key keeps the last value.  An integer of more than 4300 digits raises
    [ValueError]; an array or an object opened when the recursion limit
    leaves no depth raises [RecursionError], and so does an error of the
    document that is to be built where fewer than three levels are left.
    A position of the document is kept as the number of characters left
    after it. *)

(** [float(literal)], kept as the literal, and the three constants. *)
Inductive pyfloat : Type :=
| float_of_literal (literal : pystr)
| float_nan
| float_inf
| float_neg_inf.

(** What [json.loads] returns. *)
Abbreviation pyjson := (json pyfloat).

(** What a scan comes to: a value and the rest of the input, a
    [JSONDecodeError] with its message and position, the [StopIteration]
    that the scanner raises where no value starts, another exception, or
    the end of the fuel. *)
Inductive scan_result (A : Type) : Type :=
| Scanned (a : A) (rest : pystr)
| ScanError (msg : pystr) (remaining : nat)
| ScanStop (remaining : nat)
| ScanRaise (e : exception)
| Exhausted.
Arguments Scanned {A} a rest.
Arguments ScanError {A} msg remaining.
Arguments ScanStop {A} remaining.
Arguments ScanRaise {A} e.
Arguments Exhausted {A}.

Definition scan_bind {A B : Type} (r : scan_result A)
    (k : A -> pystr -> scan_result B) : scan_result B :=
  match r with
  | Scanned a rest => k a rest
  | ScanError msg remaining => ScanError msg remaining
  | ScanStop remaining => ScanStop remaining
  | ScanRaise e => ScanRaise e
  | Exhausted => Exhausted
  end.

(** [WHITESPACE]: space, tab, line feed and carriage return. *)
Definition is_whitespace (c : N) : bool :=
  bool_decide (c = 32 \/ c = 9 \/ c = 10 \/ c = 13)%N.

Fixpoint skip_whitespace (s : pystr) : pystr :=
  match s with
  | c :: s' => if is_whitespace c then skip_whitespace s' else s
  | [] => []
  end.

Definition is_digit (c : N) : bool := ((48 <=? c) && (c <=? 57))%N.

(** The longest run of digits at the head of [s], and what follows it. *)
Fixpoint span_digits (s : pystr) : pystr * pystr :=
  match s with
  | c :: s' =>
      if is_digit c then let '(ds, r) := span_digits s' in (c :: ds, r)
      else ([], s)
  | [] => ([], [])
  end.

Definition hex_value (c : N) : option N :=
  if is_digit c then Some (c - 48)%N
  else if ((97 <=? c) && (c <=? 102))%N then Some (c - 87)%N
  else if ((65 <=? c) && (c <=? 70))%N then Some (c - 55)%N
  else None.

(** The four hexadecimal digits of a [\uXXXX] escape. *)
Definition hex4 (h1 h2 h3 h4 : N) : option N :=
  match hex_value h1, hex_value h2, hex_value h3, hex_value h4 with
  | Some a, Some b, Some c, Some d =>
      Some (N.lor (N.shiftl (N.lor (N.shiftl (N.lor (N.shiftl a 4) b) 4) c) 4) d)
  | _, _, _, _ => None
  end.

(** The escapes of one character after a backslash. *)
Definition backslash (c : N) : option N :=
  if decide (c = 34%N) then Some 34%N
  else if decide (c = 92%N) then Some 92%N
  else if decide (c = 47%N) then Some 47%N
  else if decide (c = 98%N) then Some 8%N
  else if decide (c = 102%N) then Some 12%N
  else if decide (c = 110%N) then Some 10%N
  else if decide (c = 114%N) then Some 13%N
  else if decide (c = 116%N) then Some 9%N
  else None.

Definition is_high_surrogate (c : N) : bool := ((55296 <=? c) && (c <=? 56319))%N.
Definition is_low_surrogate (c : N) : bool := ((56320 <=? c) && (c <=? 57343))%N.
Definition join_surrogates (c c2 : N) : N :=
  (65536 + N.lor (N.shiftl (N.land c 1023) 10) (N.land c2 1023))%N.

(** [scanstring] in strict mode.  [s] starts after the opening quote,
    [begin_left] is the position of that quote, [chunks] holds the
    characters decoded so far, last first. *)
Fixpoint scanstring (begin_left : nat) (chunks : pystr) (s : pystr)
  : scan_result pystr :=
  match s with
  | [] => ScanError (u "Unterminated string starting at") begin_left
  | c :: s1 =>
      if decide (c = 34%N) then Scanned (rev chunks) s1
      else if decide (c = 92%N) then
        match s1 with
        | [] => ScanError (u "Unterminated string starting at") begin_left
        | esc :: s2 =>
            if decide (esc = 117%N) then
              match s2 with
              | h1 :: h2 :: h3 :: h4 :: ((_ :: _) as s3) =>
                  match hex4 h1 h2 h3 h4 with
                  | None => ScanError (u "Invalid \uXXXX escape") (length s1)
                  | Some c1 =>
                      match s3 with
                      | b :: e2 :: g1 :: g2 :: g3 :: g4 :: ((_ :: _) as s4) =>
                          if is_high_surrogate c1 && bool_decide (b = 92%N)
                             && bool_decide (e2 = 117%N) then
                            match hex4 g1 g2 g3 g4 with
                            | None =>
                                ScanError (u "Invalid \uXXXX escape")
                                  (S (S (S (S (S (length s4))))))
                            | Some c2 =>
                                if is_low_surrogate c2 then
                                  scanstring begin_left
                                    (join_surrogates c1 c2 :: chunks) s4
                                else scanstring begin_left (c1 :: chunks) s3
                            end
                          else scanstring begin_left (c1 :: chunks) s3
                      | _ => scanstring begin_left (c1 :: chunks) s3
                      end
                  end
              | _ => ScanError (u "Invalid \uXXXX escape") (length s1)
              end
            else
              match backslash esc with
              | Some c1 => scanstring begin_left (c1 :: chunks) s2
              | None => ScanError (u "Invalid \escape") (length s)
              end
        end
      else if (c <=? 31)%N then
        ScanError (u "Invalid control character at") (length s)
      else scanstring begin_left (c :: chunks) s1
  end.

(** [int(digits)] for a run of decimal digits. *)
Definition int_of_digits (ds : pystr) : Z :=
  fold_left (fun acc c => (10 * acc + (Z.of_N c - 48))%Z) ds 0%Z.

(** [sys.int_info.default_max_str_digits] *)
Definition max_str_digits : nat := 4300.

(** The [ValueError] of [int] for a literal of too many digits. *)
Definition int_too_long (digits : nat) : exception :=
  ValueError
    (u "Exceeds the limit (4300 digits) for integer string conversion: value has "
     ++ nat_repr digits
     ++ u " digits; use sys.set_int_max_str_digits() to increase the limit").

(** The fraction [\.\d+] at the head of [s], when there is one. *)
Definition match_frac (s : pystr) : pystr * pystr :=
  match s with
  | dot :: d :: s' =>
      if bool_decide (dot = 46%N) && is_digit d then
        let '(ds, r) := span_digits s' in (dot :: d :: ds, r)
      else ([], s)
  | _ => ([], s)
  end.

(** The exponent [[eE][-+]?\d+] at the head of [s], when there is one. *)
Definition match_exp (s : pystr) : pystr * pystr :=
  match s with
  | e :: s1 =>
      if bool_decide (e = 101 \/ e = 69)%N then
        let '(sign, s2) :=
          match s1 with
          | sg :: s2 =>
              if bool_decide (sg = 45 \/ sg = 43)%N then ([sg], s2) else ([], s1)
          | [] => ([], s1)
          end in
        match span_digits s2 with
        | ([], _) => ([], s)
        | (ds, r) => (e :: sign ++ ds, r)
        end
      else ([], s)
  | [] => ([], s)
  end.

(** The number at the head of [s] ([NUMBER_RE]): an optional minus sign,
    then [0] or a run of digits that does not start with [0], then an
    optional fraction and an optional exponent.  It is an [int] when it
    has neither fraction nor exponent, and [int] refuses more than
    [max_str_digits] digits; it is a [float] otherwise. *)
Definition match_number (s : pystr) : scan_result pyjson :=
  let '(sign, s1) :=
    match s with
    | c :: s1 => if decide (c = 45%N) then ([c], s1) else ([], s)
    | [] => ([], s)
    end in
  match s1 with
  | c :: s2 =>
      let integer :=
        if decide (c = 48%N) then Some ([c], s2)
        else if is_digit c then
          let '(ds, r) := span_digits s2 in Some (c :: ds, r)
        else None in
      match integer with
      | None => ScanStop (length s)
      | Some (digits, r) =>
          let '(frac, r1) := match_frac r in
          let '(exp, r2) := match_exp r1 in
          match frac, exp with
          | [], [] =>
              if (max_str_digits <? length digits)%nat then
                ScanRaise (int_too_long (length digits))
              else
                let n := int_of_digits digits in
                Scanned (JInt (match sign with [] => n | _ => - n end)%Z) r2
          | _, _ =>
              Scanned (JFloat (float_of_literal (sign ++ digits ++ frac ++ exp))) r2
          end
      end
  | [] => ScanStop (length s)
  end.

(** [s.startswith(prefix)], giving what follows the prefix. *)
Fixpoint after_prefix (prefix s : pystr) : option pystr :=
  match prefix, s with
  | [], _ => Some s
  | p :: prefix', c :: s' =>
      if decide (p = c) then after_prefix prefix' s' else None
  | _ :: _, [] => None
  end.

(** The constants: [null], [true], [false] and the three of [float]. *)
Definition scan_constant (s : pystr) : option (pyjson * pystr) :=
  match after_prefix (u "null") s, after_prefix (u "true") s,
        after_prefix (u "false") s, after_prefix (u "NaN") s,
        after_prefix (u "Infinity") s, after_prefix (u "-Infinity") s
  with
  | Some rest, _, _, _, _, _ => Some (JNull, rest)
  | _, Some rest, _, _, _, _ => Some (JBool true, rest)
  | _, _, Some rest, _, _, _ => Some (JBool false, rest)
  | _, _, _, Some rest, _, _ => Some (JFloat float_nan, rest)
  | _, _, _, _, Some rest, _ => Some (JFloat float_inf, rest)
  | _, _, _, _, _, Some rest => Some (JFloat float_neg_inf, rest)
  | _, _, _, _, _, _ => None
  end.

(** What the scanner raises when the recursion limit is reached. *)
Definition too_deep (container : string) : exception :=
  RecursionError
    (u "maximum recursion depth exceeded while decoding a JSON "
     ++ u container ++ u " from a unicode string").

(** What a call raises where the recursion limit leaves it no level. *)
Definition call_too_deep : exception :=
  RecursionError
    (u "maximum recursion depth exceeded while calling a Python object").

(** [raise_errmsg]: a [JSONDecodeError] is built by calling the class,
    which takes three levels of the recursion limit (the call, the frame
    of [__init__], a call in it).  Where fewer are left, CPython 3.11
    raises [RecursionError] instead.  [depth] is the number of levels left
    where the error is built. *)
Definition raise_errmsg {A : Type} (depth : nat) (msg : pystr)
    (remaining : nat) : scan_result A :=
  match depth with
  | 0 | 2 => ScanRaise call_too_deep
  | 1 => ScanRaise (RecursionError (u "maximum recursion depth exceeded"))
  | _ => ScanError msg remaining
  end.

(** The errors of [scanstring], raised at [depth]. *)
Definition errors_at {A : Type} (depth : nat) (r : scan_result A)
  : scan_result A :=
  match r with
  | ScanError msg remaining => raise_errmsg depth msg remaining
  | _ => r
  end.

(** A constant read at [depth]: [null], [true] and [false] are made in
    place, the constants of [float] by a call of [parse_constant], which
    takes one level. *)
Definition constant_at (depth : nat) (value : pyjson) (rest : pystr)
  : scan_result pyjson :=
  match value, depth with
  | JFloat _, O => ScanRaise call_too_deep
  | _, _ => Scanned value rest
  end.

(** The scanner.  [depth] is the number of arrays and objects that may
    still be opened inside one another.  [fuel] only makes the recursion
    structural; [decode] gives enough of it for any document
    (lemma [scan_fuel_enough]). *)
Fixpoint scan_once (fuel depth : nat) (s : pystr) : scan_result pyjson :=
  match fuel with
  | O => Exhausted
  | S fuel' =>
      match s with
      | [] => ScanStop 0
      | c :: s1 =>
          if decide (c = 34%N) then
            scan_bind (errors_at depth (scanstring (length s) [] s1))
              (fun str rest => Scanned (JStr str) rest)
          else if decide (c = 123%N) then
            match depth with
            | O => ScanRaise (too_deep "object")
            | S depth' =>
                let s2 := skip_whitespace s1 in
                match after_prefix (u "}") s2 with
                | Some rest => Scanned (JObj []) rest
                | None => JSONObject fuel' depth' [] s2
                end
            end
          else if decide (c = 91%N) then
            match depth with
            | O => ScanRaise (too_deep "array")
            | S depth' =>
                let s2 := skip_whitespace s1 in
                match after_prefix (u "]") s2 with
                | Some rest => Scanned (JArr []) rest
                | None => JSONArray fuel' depth' [] s2
                end
            end
          else
            match scan_constant s with
            | Some (value, rest) => constant_at depth value rest
            | None => match_number s
            end
      end
  end

(** The items of an array: [s] starts at a value, [values] holds the
    values read so far, last first. *)
with JSONArray (fuel depth : nat) (values : list pyjson) (s : pystr)
  : scan_result pyjson :=
  match fuel with
  | O => Exhausted
  | S fuel' =>
      scan_bind (scan_once fuel' depth s) (fun value rest =>
        let rest := skip_whitespace rest in
        match after_prefix (u "]") rest, after_prefix (u ",") rest with
        | Some rest', _ => Scanned (JArr (rev (value :: values))) rest'
        | None, Some rest' =>
            JSONArray fuel' depth (value :: values) (skip_whitespace rest')
        | None, None =>
            raise_errmsg depth (u "Expecting ',' delimiter") (length rest)
        end)
  end

(** The items of an object: [s] starts at a key, [pairs] holds the items
    read so far, last first. *)
with JSONObject (fuel depth : nat) (pairs : list (pystr * pyjson)) (s : pystr)
  : scan_result pyjson :=
  match fuel with
  | O => Exhausted
  | S fuel' =>
      match after_prefix dq s with
      | None =>
          raise_errmsg depth
            (u "Expecting property name enclosed in double quotes") (length s)
      | Some s1 =>
          scan_bind (errors_at depth (scanstring (length s) [] s1))
            (fun key rest =>
            let rest := skip_whitespace rest in
            match after_prefix (u ":") rest with
            | None =>
                raise_errmsg depth (u "Expecting ':' delimiter") (length rest)
            | Some rest1 =>
                scan_bind (scan_once fuel' depth (skip_whitespace rest1))
                  (fun value rest2 =>
                     let rest2 := skip_whitespace rest2 in
                     match after_prefix (u "}") rest2,
                           after_prefix (u ",") rest2 with
                     | Some rest3, _ =>
                         Scanned
                           (JObj (dict_of_pairs (rev ((key, value) :: pairs))))
                           rest3
                     | None, Some rest3 =>
                         JSONObject fuel' depth ((key, value) :: pairs)
                           (skip_whitespace rest3)
                     | None, None =>
                         raise_errmsg depth (u "Expecting ',' delimiter")
                           (length rest2)
                     end)
            end)
      end
  end.

(** The budget that makes the recursion structural. *)
Definition scan_fuel (s : pystr) : nat := S (2 * length s).

(** [JSONDecoder.raw_decode]: where the scanner finds no value and raises
    [StopIteration], the method raises the error "Expecting value".  It
    has one level more than the scanner that it calls. *)
Definition raw_decode (fuel depth : nat) (s : pystr) : scan_result pyjson :=
  match scan_once fuel depth s with
  | ScanStop remaining =>
      raise_errmsg (1 + depth) (u "Expecting value") remaining
  | r => r
  end.

(** [JSONDecoder.decode]: white space, a value, white space and nothing
    more.  It has two levels more than the scanner. *)
Definition decode (depth : nat) (s : pystr) : scan_result pyjson :=
  scan_bind (raw_decode (scan_fuel s) depth (skip_whitespace s))
    (fun obj rest =>
       match skip_whitespace rest with
       | [] => Scanned obj []
       | end_ :: rest' =>
           raise_errmsg (2 + depth) (u "Extra data") (length (end_ :: rest'))
       end).

(** [json.loads(s)] for a [str], called where the recursion limit leaves
    [depth] levels to the scanner.  The last case never occurs (lemma
    [decode_total]). *)
Definition json_loads_within (depth : nat) (s : pystr) : exception + pyjson :=
  match after_prefix [65279%N] s with
  | Some _ =>
      inl (JSONDecodeError (u "Unexpected UTF-8 BOM (decode using utf-8-sig)") s 0)
  | None =>
      match decode depth s with
      | Scanned obj _ => inr obj
      | ScanError msg remaining =>
          inl (JSONDecodeError msg s (length s - remaining))
      | ScanRaise e => inl e
      | ScanStop _ | Exhausted =>
          inl (RecursionError (u "maximum recursion depth exceeded"))
      end
  end.

(** [json.loads(s)] called from the top level of a script under the
    default recursion limit of 1000, which leaves 995 levels to the
    scanner. *)
Definition json_loads (s : pystr) : exception + pyjson :=
  json_loads_within 995 s.

(** ** Floats that are not finite

    [float(literal)] is infinite when the literal is at least
    [2^1024 - 2^970], half way from the largest double to [2^1024]. *)

Fixpoint strip_zeros (digits : pystr) : pystr :=
  match digits with
  | c :: digits' => if decide (c = 48%N) then strip_zeros digits' else digits
  | [] => []
  end.

(** The digits of a float literal, integer part then fraction, and the
    power of ten that multiplies their number. *)
Definition literal_parts (literal : pystr) : pystr * Z :=
  let unsigned :=
    match literal with
    | c :: s1 => if decide (c = 45%N) then s1 else literal
    | [] => literal
    end in
  let '(integer, r) := span_digits unsigned in
  let '(frac, r1) := match_frac r in
  let '(exp, _) := match_exp r1 in
  let frac_digits := drop 1 frac in
  let exponent :=
    match exp with
    | _ :: sg :: ds =>
        if decide (sg = 45%N) then (- int_of_digits ds)%Z
        else if decide (sg = 43%N) then int_of_digits ds
        else int_of_digits (sg :: ds)
    | _ => 0%Z
    end in
  (integer ++ frac_digits, (exponent - Z.of_nat (length frac_digits))%Z).

Definition literal_overflows (literal : pystr) : bool :=
  let '(digits, e10) := literal_parts literal in
  let significant := strip_zeros digits in
  let m := int_of_digits significant in
  let magnitude := (Z.of_nat (length significant) + e10)%Z in
  if decide (m = 0%Z) then false
  else if (310 <? magnitude)%Z then true
  else if (magnitude <? 300)%Z then false
  else if (0 <=? e10)%Z then (2 ^ 1024 - 2 ^ 970 <=? m * 10 ^ e10)%Z
  else ((2 ^ 1024 - 2 ^ 970) * 10 ^ (- e10) <=? m)%Z.

(** [math.isfinite(f)] *)
Definition is_finite (f : pyfloat) : bool :=
  match f with
  | float_of_literal literal => negb (literal_overflows literal)
  | float_nan | float_inf | float_neg_inf => false
  end.

(** ** The interpreter *)

Record Interpreter : Type := {
  (** the levels of the recursion limit left to the scanner of
      [json.loads] where the handler calls it: the arrays and objects that
      it may open inside one another *)
  decode_depth : nat;
  (** the same for the encoder where a [JSONResponse] is rendered *)
  encode_depth : nat;
  (** [float.__repr__] on a finite float *)
  float_repr : pyfloat -> string
}.

(** ** The rendering of a [JSONResponse]

    [json.dumps(content, ensure_ascii=False, allow_nan=False, indent=None,
    separators=(",", ":")).encode("utf-8")] *)

(** The replacement of one character in [py_encode_basestring]. *)
Definition escape_char (c : N) : pystr :=
  if decide (c = 92%N) then u "\\"
  else if decide (c = 34%N) then u "\" ++ dq
  else if decide (c = 8%N) then u "\b"
  else if decide (c = 12%N) then u "\f"
  else if decide (c = 10%N) then u "\n"
  else if decide (c = 13%N) then u "\r"
  else if decide (c = 9%N) then u "\t"
  else if (c <? 32)%N then u_escape c
  else [c].

Definition encode_basestring (s : pystr) : pystr :=
  dq ++ concat (map escape_char s) ++ dq.

(** The items of a container, joined; the first exception wins. *)
Fixpoint join_results (sep : pystr) (parts : list (exception + pystr))
  : exception + pystr :=
  match parts with
  | [] => inr []
  | [p] => p
  | p :: ps =>
      match p, join_results sep ps with
      | inl e, _ => inl e
      | inr _, inl e => inl e
      | inr x, inr y => inr (x ++ sep ++ y)
      end
  end.

(** The encoder: a float that is not finite raises [ValueError], a
    container opened when no depth is left raises [RecursionError]. *)
Fixpoint dumps_compact (repr : pyfloat -> string) (depth : nat) (o : pyjson)
  {struct o} : exception + pystr :=
  match o with
  | JNull => inr (u "null")
  | JBool true => inr (u "true")
  | JBool false => inr (u "false")
  | JInt z => inr (int_repr z)
  | JFloat f =>
      if is_finite f then inr (u (repr f))
      else inl (ValueError (u "Out of range float values are not JSON compliant"))
  | JStr s => inr (encode_basestring s)
  | JArr l =>
      match depth with
      | O =>
          inl (RecursionError
                 (u "maximum recursion depth exceeded while encoding a JSON object"))
      | S depth' =>
          match join_results (u ",") (map (dumps_compact repr depth') l) with
          | inl e => inl e
          | inr items => inr (u "[" ++ items ++ u "]")
          end
      end
  | JObj d =>
      match depth with
      | O =>
          inl (RecursionError
                 (u "maximum recursion depth exceeded while encoding a JSON object"))
      | S depth' =>
          match
            join_results (u ",")
              (map (fun kv =>
                      match dumps_compact repr depth' kv.2 with
                      | inl e => inl e
                      | inr value =>
                          inr (encode_basestring kv.1 ++ u ":" ++ value)
                      end) d)
          with
          | inl e => inl e
          | inr items => inr (u "{" ++ items ++ u "}")
          end
      end
  end.

Definition is_surrogate (c : N) : bool := ((55296 <=? c) && (c <=? 57343))%N.

(** The surrogates at the head of a text. *)
Fixpoint surrogate_run (text : pystr) : nat :=
  match text with
  | c :: text' => if is_surrogate c then S (surrogate_run text') else 0
  | [] => 0
  end.

(** The first run of surrogates of a text, from position [pos] on: where
    it starts and where it stops. *)
Fixpoint find_surrogates (pos : nat) (text : pystr) : option (nat * nat) :=
  match text with
  | c :: text' =>
      if is_surrogate c then Some (pos, pos + S (surrogate_run text'))
      else find_surrogates (S pos) text'
  | [] => None
  end.

(** [text.encode("utf-8")] raises on a surrogate; the bytes of a text
    without one are not spelled out. *)
Definition render (py : Interpreter) (content : pyjson) : exception + pystr :=
  match dumps_compact (float_repr py) (encode_depth py) content with
  | inl e => inl e
  | inr text =>
      match find_surrogates 0 text with
      | Some (start, stop) =>
          inl (UnicodeEncodeError (u "utf-8") text start stop
                 (u "surrogates not allowed"))
      | None => inr text
      end
  end.

(** ** The outside world and the monad of effects *)

(** [generation_config]: a dict from option names to strings. *)
Definition generation_config := list (pystr * pystr).

(** One call received by the generation provider. *)
Record ProviderCall : Type := {
  call_prompt : pystr;
  call_generation_config : generation_config
}.

(** The response of the provider.  Its [text] property raises when the
    response carries no text (a blocked or empty candidate). *)
Record GenerateContentResponse : Type := {
  text : exception + pystr
}.

(** The provider behind [model.generate_content_async]: what it answers,
    or raises, given the calls it has received before, the prompt and the
    configuration. *)
Definition GenerativeModel : Type :=
  list ProviderCall -> pystr -> generation_config ->
  exception + GenerateContentResponse.

Record World : Type := {
  provider_calls : list ProviderCall;
  stdout : list pystr
}.

Inductive outcome (A : Type) : Type :=
| Return (a : A)
| Raise (e : exception).
Arguments Return {A} a.
Arguments Raise {A} e.

Definition M (A : Type) : Type := World -> outcome A * World.

#[global] Instance M_ret : MRet M := fun A a w => (Return a, w).

#[global] Instance M_bind : MBind M := fun A B k m w =>
  match m w with
  | (Return a, w') => k a w'
  | (Raise e, w') => (Raise e, w')
  end.

(** [raise e] *)
Definition raise {A : Type} (e : exception) : M A := fun w => (Raise e, w).

(** A value or an exception of the pure part of the code. *)
Definition lift {A : Type} (r : exception + A) : M A :=
  match r with
  | inl e => raise e
  | inr a => mret a
  end.

(** [try: body except Exception as e: handler(e)] *)
Definition try_except {A : Type} (body : M A) (handler : exception -> M A)
  : M A := fun w =>
  match body w with
  | (Return a, w') => (Return a, w')
  | (Raise e, w') => handler e w'
  end.

(** [print(line)] *)
Definition print (line : pystr) : M unit := fun w =>
  (Return tt, {| provider_calls := provider_calls w;
                 stdout := stdout w ++ [line] |}).

(** [await model.generate_content_async(prompt, generation_config=...)]:
    the call reaches the provider, which answers or raises. *)
Definition generate_content_async (model : GenerativeModel) (prompt : pystr)
    (config : generation_config) : M GenerateContentResponse := fun w =>
  let w' := {| provider_calls :=
                 provider_calls w
                 ++ [{| call_prompt := prompt;
                        call_generation_config := config |}];
               stdout := stdout w |} in
  match model (provider_calls w) prompt config with
  | inl e => (Raise e, w')
  | inr response => (Return response, w')
  end.

(** ** Start-up: the top level of the module *)

(** What the module has set up once it is imported. *)
Record Service : Type := {
  api_key : pystr;
  model_name : pystr
}.

(** [not v] for the result of [os.getenv]: [None] and the empty string
    are false. *)
Definition falsy (v : option pystr) : bool :=
  match v with
  | None => true
  | Some [] => true
  | Some (_ :: _) => false
  end.

Definition startup (environ : gmap pystr pystr) : exception + Service :=
  let api_key := environ !! u "GEMINI_API_KEY" in
  if falsy api_key then
    inl (ValueError (u "GEMINI_API_KEY environment variable not set."))
  else
    inr {| api_key := default [] api_key;
           model_name := u "gemini-1.5-flash-001" |}.

(** ** The request model *)

Record AnalysisRequest : Type := {
  unstructured_text : pystr;
  context : pystr
}.

(** One entry of the [detail] of a validation error. *)
Definition validation_error (type : string) (loc : list pystr) (msg : string)
    (input : pyjson) : pyjson :=
  JObj [(u "type", JStr (u type));
        (u "loc", JArr (map JStr loc));
        (u "msg", JStr (u msg));
        (u "input", input)].

(** The validation of a field declared [str]: the value, or the errors. *)
Definition validate_str (loc : list pystr) (value : pyjson)
  : list pyjson + pystr :=
  match value with
  | JStr s => inr s
  | _ => inl [validation_error "string_type" loc
                "Input should be a valid string" value]
  end.

(** The validation of the JSON body of a request against
    [AnalysisRequest], as FastAPI runs it (with Pydantic 2) before it calls
    the handler: the body is an object, [unstructured_text] is required,
    [context] has a default, both are strings, other keys are ignored.
    The result is the request, or the errors of all the fields. *)
Definition validate_AnalysisRequest (body : pyjson)
  : list pyjson + AnalysisRequest :=
  match body with
  | JObj d =>
      let unstructured_text :=
        match dict_get (u "unstructured_text") d with
        | None =>
            inl [validation_error "missing" [u "body"; u "unstructured_text"]
                   "Field required" body]
        | Some value => validate_str [u "body"; u "unstructured_text"] value
        end in
      let context :=
        match dict_get (u "context") d with
        | None => inr default_context
        | Some value => validate_str [u "body"; u "context"] value
        end in
      match unstructured_text, context with
      | inr t, inr c => inr {| unstructured_text := t; context := c |}
      | inl errors, inr _ => inl errors
      | inr _, inl errors => inl errors
      | inl errors, inl errors' => inl (errors ++ errors')
      end
  | _ =>
      inl [validation_error "model_attributes_type" [u "body"]
             "Input should be a valid dictionary or object to extract fields from"
             body]
  end.

(** ** The endpoint [POST /analyze] *)

Record JSONResponse : Type := {
  content : pyjson;
  status_code : Z
}.

(** [JSONResponse(content=..., status_code=...)]: the constructor renders
    the content and raises what the rendering raises. *)
Definition new_JSONResponse (py : Interpreter) (content : pyjson)
    (status_code : Z) : exception + JSONResponse :=
  match render py content with
  | inl e => inl e
  | inr _ => inr {| content := content; status_code := status_code |}
  end.

(** The f-string of the handler. *)
Definition prompt (request : AnalysisRequest) : pystr :=
  nl
  ++ u "        Analyze the following unstructured text regarding financial matters, specifically in the context of '"
  ++ context request ++ u "'." ++ nl
  ++ u "        Your task is to act as an expert financial analyst. Extract key information, identify risks, and provide actionable recommendations."
  ++ nl
  ++ u "        " ++ nl
  ++ u "        Please provide your analysis strictly in the following JSON format:"
  ++ nl
  ++ u "        " ++ json_dumps no_float_repr JSON_OUTPUT_SCHEMA ++ nl
  ++ nl
  ++ u "        Here is the text to analyze:" ++ nl
  ++ u "        ---" ++ nl
  ++ u "        " ++ unstructured_text request ++ nl
  ++ u "        ---" ++ nl
  ++ u "        ".

Section Handler.

Variable py : Interpreter.
Variable model : GenerativeModel.

(** The body of the [try] statement. *)
Definition analyze_try (request : AnalysisRequest) : M JSONResponse :=
  let prompt := prompt request in
  response ← generate_content_async model prompt
               [(u "response_mime_type", u "application/json")];
  response_text ← lift (text response);
  parsed_response ← lift (json_loads_within (decode_depth py) response_text);
  lift (new_JSONResponse py parsed_response 200).

(** The [except Exception as e] clause. *)
Definition analyze_except (e : exception) : M JSONResponse :=
  print (u "An error occurred: " ++ str e);;
  raise (HTTPException 500 (u "An internal error occurred: " ++ str e)).

Definition analyze_unstructured_data (request : AnalysisRequest)
  : M JSONResponse :=
  try_except (analyze_try request) analyze_except.

End Handler.

(** ** The HTTP surface, as FastAPI serves the decorated functions *)

Record HTTPResponse : Type := {
  status : Z;
  body : pyjson
}.

(** [POST /analyze] with a JSON body: validation, then the handler.  A
    [JSONResponse] is sent as it is, an [HTTPException] becomes a response
    with its status and its detail under the key [detail]; any other
    exception would leave the route unhandled. *)
Definition post_analyze (py : Interpreter) (model : GenerativeModel)
    (request_body : pyjson) : M HTTPResponse :=
  match validate_AnalysisRequest request_body with
  | inl errors =>
      mret {| status := 422; body := JObj [(u "detail", JArr errors)] |}
  | inr request => fun w =>
      match analyze_unstructured_data py model request w with
      | (Return response, w') =>
          (Return {| status := status_code response;
                     body := content response |}, w')
      | (Raise (HTTPException code detail), w') =>
          (Return {| status := code;
                     body := JObj [(u "detail", JStr detail)] |}, w')
      | (Raise e, w') => (Raise e, w')
      end
  end.

(** The health check. *)
Definition read_root : M pyjson :=
  mret (JObj [(u "status", JStr (u "Agent is running"))]).

(** [GET /]: the dict that [read_root] returns is sent with status 200. *)
Definition get_root : M HTTPResponse :=
  result ← read_root;
  mret {| status := 200; body := result |}.

(** ** Observations used in the statements *)

(** The call that the handler makes for a request. *)
Definition analyze_call (request : AnalysisRequest) : ProviderCall :=
  {| call_prompt := prompt request;
     call_generation_config :=
       [(u "response_mime_type", u "application/json")] |}.

(** What the provider gives for a request in a world: the text of its
    response, or the exception of the call or of the [text] property. *)
Definition provider_text (model : GenerativeModel) (w : World)
    (request : AnalysisRequest) : exception + pystr :=
  match model (provider_calls w) (prompt request)
          [(u "response_mime_type", u "application/json")] with
  | inl e => inl e
  | inr response => text response
  end.

(** The world once the provider has received the call of the handler. *)
Definition after_call (w : World) (request : AnalysisRequest) : World :=
  {| provider_calls := provider_calls w ++ [analyze_call request];
     stdout := stdout w |}.

(** The world once a line has been printed. *)
Definition after_print (w : World) (line : pystr) : World :=
  {| provider_calls := provider_calls w; stdout := stdout w ++ [line] |}.

(** The names under [required] in a schema. *)
Definition schema_required (schema : schema_value) : list pystr :=
  match schema with
  | JObj d =>
      match dict_get (u "required") d with
      | Some (JArr names) =>
          omap (fun name => match name with JStr s => Some s | _ => None end)
            names
      | _ => []
      end
  | _ => []
  end.

(** A decoded object that lacks one of the required fields of
    [JSON_OUTPUT_SCHEMA]. *)
Definition omits_required_field (value : pyjson) : bool :=
  match value with
  | JObj d =>
      existsb (fun name => negb (bool_decide (is_Some (dict_get name d))))
        (schema_required JSON_OUTPUT_SCHEMA)
  | _ => false
  end.

(** ** Concrete providers, worlds and documents for the examples *)

(** A JSON text written with an apostrophe for each double quote. *)
Definition jq (s : string) : pystr :=
  map (fun c => if decide (c = 39%N) then 34%N else c) (u s).
Arguments jq s%_string.

(** A provider that always answers with the same text. *)
Definition stub_model (response_text : pystr) : GenerativeModel :=
  fun _ _ _ => inr {| text := inr response_text |}.

(** A provider whose call always raises. *)
Definition failing_model (e : exception) : GenerativeModel :=
  fun _ _ _ => inl e.

Definition initial_world : World := {| provider_calls := []; stdout := [] |}.

(** An interpreter for the examples: 900 levels for the decoder and for
    the encoder.  Its [float_repr] is a stand-in: the examples render no
    finite float, and the theorems hold for every [float_repr]. *)
Definition example_interpreter : Interpreter :=
  {| decode_depth := 900; encode_depth := 900;
     float_repr := fun _ => "0.0"%string |}.

(** An environment where the key is set to the empty string. *)
Definition empty_key_environ : gmap pystr pystr :=
  {[ u "GEMINI_API_KEY" := [] ]}.

Definition farmer_body : pyjson :=
  JObj [(u "unstructured_text",
          JStr (u "Farmer took a 50000 INR loan at 12% interest."))].

Definition farmer_request : AnalysisRequest :=
  {| unstructured_text := u "Farmer took a 50000 INR loan at 12% interest.";
     context := default_context |}.

Definition farmer_analysis_text : pystr :=
  jq "{'summary':'...','key_entities':['loan'],'sentiment':'Neutral','recommendations':['...'],'potential_risks':['...']}".

Definition farmer_analysis : pyjson :=
  JObj [(u "summary", JStr (u "..."));
        (u "key_entities", JArr [JStr (u "loan")]);
        (u "sentiment", JStr (u "Neutral"));
        (u "recommendations", JArr [JStr (u "...")]);
        (u "potential_risks", JArr [JStr (u "...")])].

(** ** Further observations: a sequence of requests, the start of a JSON
    value, the schema as a decoded value *)

(** The requests of a list of bodies that pass validation, in order. *)
Fixpoint valid_requests (bodies : list pyjson) : list AnalysisRequest :=
  match bodies with
  | [] => []
  | request_body :: bodies' =>
      match validate_AnalysisRequest request_body with
      | inl _ => valid_requests bodies'
      | inr request => request :: valid_requests bodies'
      end
  end.

(** The application serving requests to [POST /analyze] one after the
    other. *)
Fixpoint serve (py : Interpreter) (model : GenerativeModel)
    (bodies : list pyjson) : M (list HTTPResponse) :=
  match bodies with
  | [] => mret []
  | request_body :: bodies' =>
      response ← post_analyze py model request_body;
      responses ← serve py model bodies';
      mret (response :: responses)
  end.

(** The characters at which a JSON value can start. *)
Definition starts_value (c : N) : bool :=
  bool_decide (c = 34 \/ c = 123 \/ c = 91 \/ c = 45 \/ c = 110 \/ c = 116
               \/ c = 102 \/ c = 78 \/ c = 73)%N
  || is_digit c.

(** A value that holds no float, seen as a value that may hold some. *)
Fixpoint json_cast (o : schema_value) : pyjson :=
  match o with
  | JNull => JNull
  | JBool b => JBool b
  | JInt z => JInt z
  | JFloat f => match f with end
  | JStr s => JStr s
  | JArr l => JArr (map json_cast l)
  | JObj d => JObj (map (fun kv => (kv.1, json_cast kv.2)) d)
  end.


(** A run of white space. *)
Definition blank (ws : pystr) : bool := forallb is_whitespace ws.

(** Every dict of the value has distinct keys, at every depth. *)
Fixpoint unique_keys {F : Type} (o : json F) : bool :=
  match o with
  | JArr l => forallb unique_keys l
  | JObj d =>
      bool_decide (NoDup (map fst d))
      && forallb (fun kv => unique_keys kv.2) d
  | _ => true
  end.


(** What a value needs for a [JSONResponse] to be built from it: every
    float finite, arrays and objects not deeper inside one another than
    the encoder may go, no surrogate in a string or in a key. *)
Fixpoint all_finite (o : pyjson) : bool :=
  match o with
  | JFloat f => is_finite f
  | JArr l => forallb all_finite l
  | JObj d => forallb (fun kv => all_finite kv.2) d
  | _ => true
  end.

Fixpoint nesting (o : pyjson) : nat :=
  match o with
  | JArr l => S (foldr Nat.max 0 (map nesting l))
  | JObj d => S (foldr Nat.max 0 (map (fun kv => nesting kv.2) d))
  | _ => 0
  end.

Definition no_surrogate (text : pystr) : bool :=
  forallb (fun c => negb (is_surrogate c)) text.

Fixpoint encodable (o : pyjson) : bool :=
  match o with
  | JStr s => no_surrogate s
  | JArr l => forallb encodable l
  | JObj d => forallb (fun kv => no_surrogate kv.1 && encodable kv.2) d
  | _ => true
  end.

Definition renderable (py : Interpreter) (o : pyjson) : bool :=
  all_finite o && (nesting o <=? encode_depth py) && encodable o.

(** * Properties

    ** The decoder: every scan consumes input and the recursion budget of
    [json_loads] is never exhausted *)

Lemma skip_whitespace_length (s : pystr) :
  length (skip_whitespace s) <= length s.
Proof.
  induction s as [|c s IH]; simpl; [lia|].
  destruct (is_whitespace c); simpl; lia.
Qed.

Lemma span_digits_length (s : pystr) :
  length (span_digits s).2 <= length s.
Proof.
  induction s as [|c s IH]; simpl; [lia|].
  destruct (is_digit c); simpl; [|lia].
  destruct (span_digits s) as [ds r]; simpl in *; lia.
Qed.

Lemma after_prefix_length (p s r : pystr) :
  after_prefix p s = Some r -> length s = length p + length r.
Proof.
  revert s; induction p as [|a p IH]; intros s H; simpl in *.
  - inversion H; lia.
  - destruct s as [|c s]; [discriminate|].
    destruct (decide (a = c)); [|discriminate].
    simpl; rewrite (IH _ H); lia.
Qed.

Lemma scan_constant_shorter (s : pystr) (v : pyjson) (r : pystr) :
  scan_constant s = Some (v, r) -> length r < length s.
Proof.
  unfold scan_constant; intros H.
  repeat match type of H with
  | context [after_prefix ?p s] =>
      let E := fresh "E" in
      destruct (after_prefix p s) eqn:E;
      [apply after_prefix_length in E; vm_compute (length p) in E|]
  end; inversion H; subst; lia.
Qed.

Lemma scanstring_shorter_aux (n : nat) :
  forall (s : pystr) (b : nat) (acc k r : pystr),
    length s <= n ->
    scanstring b acc s = Scanned k r -> length r < length s.
Proof.
  induction n as [|n IH]; intros s b acc k r Hn H.
  - destruct s; [discriminate | simpl in Hn; lia].
  - destruct s as [|c s1]; [discriminate|].
    simpl in H, Hn.
    repeat case_match; subst; try discriminate;
      try (inversion H; subst; simpl; lia);
      apply IH in H; simpl in *; lia.
Qed.

Lemma scanstring_shorter (s : pystr) (b : nat) (acc k r : pystr) :
  scanstring b acc s = Scanned k r -> length r < length s.
Proof. apply (scanstring_shorter_aux (length s)); lia. Qed.

Lemma match_frac_length (s : pystr) : length (match_frac s).2 <= length s.
Proof.
  unfold match_frac.
  destruct s as [|dot [|d s']]; simpl; try lia.
  case_match; simpl; [|lia].
  pose proof (span_digits_length s').
  destruct (span_digits s'); simpl in *; lia.
Qed.

Lemma match_exp_length (s : pystr) : length (match_exp s).2 <= length s.
Proof.
  unfold match_exp.
  destruct s as [|e s1]; [simpl; lia|].
  case_match; [|simpl; lia].
  assert (Hd : forall sign s2, length s2 <= length s1 ->
    length (match span_digits s2 with
            | ([], _) => ([], e :: s1)
            | (ds, r) => (e :: sign ++ ds, r)
            end).2 <= length (e :: s1)).
  { intros sign s2 Hs. pose proof (span_digits_length s2).
    destruct (span_digits s2) as [[|d ds] r]; simpl in *; lia. }
  destruct s1 as [|sg s2]; [apply (Hd [] []); simpl; lia|].
  destruct (bool_decide (sg = 45%N \/ sg = 43%N));
    [apply (Hd [sg] s2) | apply (Hd [] (sg :: s2))]; simpl; lia.
Qed.

Lemma match_number_shorter (s : pystr) (v : pyjson) (r : pystr) :
  match_number s = Scanned v r -> length r < length s.
Proof.
  unfold match_number; intros H.
  assert (Hint : forall c s2 digits r0 (I : option (pystr * pystr)),
      I = (if decide (c = 48%N) then Some ([c], s2)
           else if is_digit c then
             let '(ds, r) := span_digits s2 in Some (c :: ds, r)
           else None) ->
      I = Some (digits, r0) -> length r0 <= length s2).
  { intros c s2 digits r0 I -> HI.
    destruct (decide (c = 48%N)); [inversion HI; lia|].
    destruct (is_digit c); [|discriminate].
    pose proof (span_digits_length s2).
    destruct (span_digits s2); inversion HI; subst; simpl in *; lia. }
  destruct s as [|c s1]; [discriminate|].
  destruct (decide (c = 45%N)).
  - destruct s1 as [|c' s2]; [discriminate|].
    match type of H with
    | match ?I with _ => _ end = _ => destruct I as [[digits r0]|] eqn:EI
    end; [|discriminate].
    eapply Hint in EI; [|reflexivity].
    pose proof (match_frac_length r0) as Hf.
    destruct (match_frac r0) as [frac r1]; simpl in Hf.
    pose proof (match_exp_length r1) as He.
    destruct (match_exp r1) as [exp r2]; simpl in He.
    destruct frac, exp; try destruct (_ <? _)%nat;
      inversion H; subst; simpl in *; lia.
  - match type of H with
    | match ?I with _ => _ end = _ => destruct I as [[digits r0]|] eqn:EI
    end; [|discriminate].
    eapply Hint in EI; [|reflexivity].
    pose proof (match_frac_length r0) as Hf.
    destruct (match_frac r0) as [frac r1]; simpl in Hf.
    pose proof (match_exp_length r1) as He.
    destruct (match_exp r1) as [exp r2]; simpl in He.
    destruct frac, exp; try destruct (_ <? _)%nat;
      inversion H; subst; simpl in *; lia.
Qed.

Lemma raise_errmsg_not_scanned {A : Type} (depth : nat) (msg : pystr)
    (n : nat) (a : A) (r : pystr) :
  raise_errmsg depth msg n <> Scanned a r.
Proof. destruct depth as [|[|[|depth]]]; discriminate. Qed.

Lemma raise_errmsg_not_exhausted {A : Type} (depth : nat) (msg : pystr)
    (n : nat) :
  @raise_errmsg A depth msg n <> Exhausted.
Proof. destruct depth as [|[|[|depth]]]; discriminate. Qed.

Lemma constant_at_scanned (depth : nat) (value : pyjson) (rest : pystr)
    (v : pyjson) (r : pystr) :
  constant_at depth value rest = Scanned v r -> v = value /\ r = rest.
Proof.
  unfold constant_at. destruct value, depth; intros H; inversion H; auto.
Qed.

Lemma constant_at_not_exhausted (depth : nat) (value : pyjson) (rest : pystr) :
  constant_at depth value rest <> Exhausted.
Proof. unfold constant_at. destruct value, depth; discriminate. Qed.

Lemma scan_bind_raise_errmsg {A B : Type} (depth : nat) (msg : pystr)
    (n : nat) (f : A -> pystr -> scan_result B) :
  scan_bind (raise_errmsg depth msg n) f = raise_errmsg depth msg n.
Proof. destruct depth as [|[|[|depth]]]; reflexivity. Qed.

Lemma errors_at_scanned {A : Type} (depth : nat) (x : scan_result A) (a : A)
    (r : pystr) :
  errors_at depth x = Scanned a r -> x = Scanned a r.
Proof.
  destruct x; simpl; try tauto.
  intros H. destruct (raise_errmsg_not_scanned _ _ _ _ _ H).
Qed.

Lemma errors_at_exhausted {A : Type} (depth : nat) (x : scan_result A) :
  errors_at depth x = Exhausted -> x = Exhausted.
Proof.
  destruct x; simpl; try tauto.
  intros H. destruct (raise_errmsg_not_exhausted _ _ _ H).
Qed.

Ltac prefix_cases H :=
  repeat match type of H with
  | context [after_prefix ?p ?s] =>
      let E := fresh "E" in
      destruct (after_prefix p s) eqn:E;
      [apply after_prefix_length in E; vm_compute (length p) in E|]
  end.

(** What cannot be: an error built by [raise_errmsg] is no value. *)
Ltac no_errmsg :=
  match goal with
  | H : raise_errmsg _ _ _ = Scanned _ _ |- _ =>
      destruct (raise_errmsg_not_scanned _ _ _ _ _ H)
  | H : raise_errmsg _ _ _ = Exhausted |- _ =>
      destruct (raise_errmsg_not_exhausted _ _ _ H)
  | H : scan_bind (raise_errmsg _ _ _) _ = _ |- _ =>
      rewrite scan_bind_raise_errmsg in H; no_errmsg
  end.

Lemma scan_consumes (fuel : nat) :
  forall (depth : nat) (s : pystr),
    (forall v r, scan_once fuel depth s = Scanned v r -> length r < length s)
    /\ (forall acc v r,
          JSONArray fuel depth acc s = Scanned v r -> length r < length s)
    /\ (forall acc v r,
          JSONObject fuel depth acc s = Scanned v r -> length r < length s).
Proof.
  induction fuel as [|fuel IH]; intros depth s.
  { repeat split; intros; discriminate. }
  repeat split.
  - intros v r H. destruct s as [|c s1]; [discriminate|].
    cbn [scan_once] in H.
    pose proof (skip_whitespace_length s1) as Hw.
    destruct (decide (c = 34%N)).
    { destruct (scanstring (length (c :: s1)) [] s1) eqn:E;
        cbn [errors_at scan_bind] in H; try discriminate; try no_errmsg.
      apply scanstring_shorter in E. inversion H; subst; simpl; lia. }
    destruct (decide (c = 123%N)).
    { destruct depth as [|depth]; [discriminate|].
      cbv zeta in H. prefix_cases H.
      - inversion H; subst; simpl; lia.
      - apply (IH depth (skip_whitespace s1)) in H. simpl; lia. }
    destruct (decide (c = 91%N)).
    { destruct depth as [|depth]; [discriminate|].
      cbv zeta in H. prefix_cases H.
      - inversion H; subst; simpl; lia.
      - apply (IH depth (skip_whitespace s1)) in H. simpl; lia. }
    destruct (scan_constant (c :: s1)) as [[value rest]|] eqn:E.
    + apply scan_constant_shorter in E.
      apply constant_at_scanned in H as [_ ->]. lia.
    + apply match_number_shorter in H; lia.
  - intros acc v r H. cbn [JSONArray] in H.
    destruct (scan_once fuel depth s) as [value rest| | | |] eqn:E;
      try discriminate.
    apply (IH depth s) in E. cbn [scan_bind] in H. cbv zeta in H.
    pose proof (skip_whitespace_length rest) as Hw.
    prefix_cases H; try discriminate; try no_errmsg.
    + inversion H; subst; lia.
    + match type of H with
      | JSONArray _ _ _ (skip_whitespace ?x) = _ =>
          pose proof (skip_whitespace_length x);
          apply (IH depth (skip_whitespace x)) in H
      end. lia.
  - intros acc v r H. cbn [JSONObject] in H.
    prefix_cases H; try discriminate; try no_errmsg.
    match type of H with
    | context [scanstring ?b [] ?x] =>
        destruct (scanstring b [] x) as [key rest| | | |] eqn:Ek;
        cbn [errors_at scan_bind] in H; try discriminate; try no_errmsg
    end.
    apply scanstring_shorter in Ek. cbv zeta in H.
    pose proof (skip_whitespace_length rest) as Hw.
    prefix_cases H; try discriminate; try no_errmsg.
    match type of H with
    | context [scan_once fuel depth (skip_whitespace ?x)] =>
        pose proof (skip_whitespace_length x) as Hw1;
        destruct (scan_once fuel depth (skip_whitespace x))
          as [value rest2| | | |] eqn:E2;
        try discriminate
    end.
    apply (IH depth (skip_whitespace _)) in E2.
    cbn [scan_bind] in H. cbv zeta in H.
    pose proof (skip_whitespace_length rest2) as Hw2.
    prefix_cases H; try discriminate; try no_errmsg.
    + inversion H; subst; lia.
    + match type of H with
      | JSONObject _ _ _ (skip_whitespace ?x) = _ =>
          pose proof (skip_whitespace_length x);
          apply (IH depth (skip_whitespace x)) in H
      end. lia.
Qed.

Lemma scanstring_not_exhausted_aux (n : nat) :
  forall (s : pystr) (b : nat) (acc : pystr),
    length s <= n -> scanstring b acc s <> Exhausted.
Proof.
  induction n as [|n IH]; intros s b acc Hn H.
  - destruct s; [discriminate | simpl in Hn; lia].
  - destruct s as [|c s1]; [discriminate|].
    simpl in H, Hn.
    repeat case_match; subst; try discriminate;
      apply IH in H; auto; simpl in *; lia.
Qed.

Lemma scanstring_not_exhausted (s : pystr) (b : nat) (acc : pystr) :
  scanstring b acc s <> Exhausted.
Proof. apply (scanstring_not_exhausted_aux (length s)); lia. Qed.

Lemma scan_fuel_enough (fuel : nat) :
  forall (depth : nat) (s : pystr),
    (2 * length s + 1 <= fuel -> scan_once fuel depth s <> Exhausted)
    /\ (2 * length s + 2 <= fuel ->
        forall acc, JSONArray fuel depth acc s <> Exhausted)
    /\ (2 * length s + 2 <= fuel ->
        forall acc, JSONObject fuel depth acc s <> Exhausted).
Proof.
  induction fuel as [|fuel IH]; intros depth s.
  { repeat split; intros; lia. }
  repeat split.
  - intros Hf H. destruct s as [|c s1]; [discriminate|].
    cbn [scan_once] in H. simpl in Hf.
    pose proof (skip_whitespace_length s1) as Hw.
    destruct (decide (c = 34%N)).
    { destruct (scanstring (length (c :: s1)) [] s1) eqn:E;
        cbn [errors_at scan_bind] in H; try discriminate; try no_errmsg.
      exact (scanstring_not_exhausted _ _ _ E). }
    destruct (decide (c = 123%N)).
    { destruct depth as [|depth]; [discriminate|].
      cbv zeta in H. prefix_cases H; [discriminate|].
      revert H. apply (IH depth (skip_whitespace s1)). lia. }
    destruct (decide (c = 91%N)).
    { destruct depth as [|depth]; [discriminate|].
      cbv zeta in H. prefix_cases H; [discriminate|].
      revert H. apply (IH depth (skip_whitespace s1)). lia. }
    destruct (scan_constant (c :: s1)) as [[value rest]|];
      [destruct (constant_at_not_exhausted _ _ _ H)|].
    unfold match_number in H.
    repeat case_match; discriminate.
  - intros Hf acc H. cbn [JSONArray] in H.
    destruct (scan_once fuel depth s) as [value rest| | | |] eqn:E;
      try discriminate.
    + apply (scan_consumes fuel depth s) in E.
      cbn [scan_bind] in H. cbv zeta in H.
      pose proof (skip_whitespace_length rest) as Hw.
      prefix_cases H; try discriminate; try no_errmsg.
      match type of H with
      | JSONArray _ _ _ (skip_whitespace ?x) = _ =>
          pose proof (skip_whitespace_length x);
          revert H; apply (IH depth (skip_whitespace x)); lia
      end.
    + revert E. apply (IH depth s). lia.
  - intros Hf acc H. cbn [JSONObject] in H.
    prefix_cases H; try discriminate; try no_errmsg.
    match type of H with
    | context [scanstring ?b [] ?x] =>
        destruct (scanstring b [] x) as [key rest| | | |] eqn:Ek;
        cbn [errors_at scan_bind] in H; try discriminate; try no_errmsg
    end.
    2:{ exact (scanstring_not_exhausted _ _ _ Ek). }
    apply scanstring_shorter in Ek. cbv zeta in H.
    pose proof (skip_whitespace_length rest) as Hw.
    prefix_cases H; try discriminate; try no_errmsg.
    match type of H with
    | context [scan_once fuel depth (skip_whitespace ?x)] =>
        pose proof (skip_whitespace_length x) as Hw1;
        destruct (scan_once fuel depth (skip_whitespace x))
          as [value rest2| | | |] eqn:E2;
        try discriminate
    end.
    + apply (scan_consumes fuel depth (skip_whitespace _)) in E2.
      cbn [scan_bind] in H. cbv zeta in H.
      pose proof (skip_whitespace_length rest2) as Hw2.
      prefix_cases H; try discriminate; try no_errmsg.
      match type of H with
      | JSONObject _ _ _ (skip_whitespace ?x) = _ =>
          pose proof (skip_whitespace_length x);
          revert H; apply (IH depth (skip_whitespace x)); lia
      end.
    + revert E2. apply (IH depth (skip_whitespace _)). lia.
Qed.

(** The fuel of [decode] is never exhausted. *)
Lemma scan_never_exhausted (depth : nat) (s : pystr) :
  scan_once (scan_fuel s) depth (skip_whitespace s) <> Exhausted.
Proof.
  apply (scan_fuel_enough (scan_fuel s)).
  pose proof (skip_whitespace_length s). unfold scan_fuel. lia.
Qed.

Lemma scanstring_no_raise_aux (n : nat) :
  forall (s : pystr) (b : nat) (acc : pystr) (e : exception),
    length s <= n -> scanstring b acc s <> ScanRaise e.
Proof.
  induction n as [|n IH]; intros s b acc e Hn H.
  - destruct s; [discriminate | simpl in Hn; lia].
  - destruct s as [|c s1]; [discriminate|].
    simpl in H, Hn.
    repeat case_match; subst; try discriminate;
      apply IH in H; auto; simpl in *; lia.
Qed.

Lemma scanstring_no_raise (s : pystr) (b : nat) (acc : pystr) (e : exception) :
  scanstring b acc s <> ScanRaise e.
Proof. apply (scanstring_no_raise_aux (length s)); lia. Qed.

Lemma raise_errmsg_raises {A : Type} (depth : nat) (msg : pystr) (n : nat)
    (e : exception) :
  @raise_errmsg A depth msg n = ScanRaise e -> exists msg', e = RecursionError msg'.
Proof.
  destruct depth as [|[|[|depth]]]; intros H; inversion H; eauto.
Qed.

Lemma errors_at_raises {A : Type} (depth : nat) (x : scan_result A)
    (e : exception) :
  errors_at depth x = ScanRaise e ->
  x = ScanRaise e \/ exists msg, e = RecursionError msg.
Proof.
  destruct x; simpl; try discriminate; [|auto].
  intros H. right. exact (raise_errmsg_raises _ _ _ _ H).
Qed.

Lemma match_number_raises (s : pystr) (e : exception) :
  match_number s = ScanRaise e ->
  exists digits, max_str_digits < digits /\ e = int_too_long digits.
Proof.
  unfold match_number. intros H.
  repeat case_match; simplify_eq;
    match goal with
    | Hd : (max_str_digits <? ?n) = true |- _ =>
        exists n; split; [apply Nat.ltb_lt, Hd | reflexivity]
    end.
Qed.

(** What the scanner raises: the [ValueError] of an integer with too
    many digits, or a [RecursionError]. *)
Lemma scan_raises (fuel : nat) :
  forall (depth : nat) (s : pystr) (e : exception),
    (scan_once fuel depth s = ScanRaise e
     \/ (exists acc, JSONArray fuel depth acc s = ScanRaise e)
     \/ (exists acc, JSONObject fuel depth acc s = ScanRaise e)) ->
    (exists digits, max_str_digits < digits /\ e = int_too_long digits)
    \/ exists msg, e = RecursionError msg.
Proof.
  induction fuel as [|fuel IH]; intros depth s e.
  { intros [H|[[acc H]|[acc H]]]; discriminate. }
  intros [H|[[acc H]|[acc H]]].
  - destruct s as [|c s1]; [discriminate|].
    cbn [scan_once] in H.
    destruct (decide (c = 34%N)).
    { destruct (errors_at depth (scanstring (length (c :: s1)) [] s1))
        as [k rest| | |e'|] eqn:E; try discriminate.
      inversion H; subst e'. apply errors_at_raises in E as [E|E];
        [destruct (scanstring_no_raise _ _ _ _ E) | right; exact E]. }
    destruct (decide (c = 123%N)).
    { destruct depth as [|depth]; [inversion H; right; eauto|].
      cbv zeta in H.
      destruct (after_prefix (u "}") (skip_whitespace s1)); [discriminate|].
      apply (IH depth (skip_whitespace s1)). eauto. }
    destruct (decide (c = 91%N)).
    { destruct depth as [|depth]; [inversion H; right; eauto|].
      cbv zeta in H.
      destruct (after_prefix (u "]") (skip_whitespace s1)); [discriminate|].
      apply (IH depth (skip_whitespace s1)). eauto. }
    destruct (scan_constant (c :: s1)) as [[value rest]|].
    { unfold constant_at in H. destruct value, depth; inversion H.
      right. eexists. reflexivity. }
    left. exact (match_number_raises _ _ H).
  - cbn [JSONArray] in H.
    destruct (scan_once fuel depth s) as [value rest| | |e'|] eqn:E;
      try discriminate.
    + cbn [scan_bind] in H. cbv zeta in H.
      destruct (after_prefix (u "]") (skip_whitespace rest)); [discriminate|].
      destruct (after_prefix (u ",") (skip_whitespace rest)) as [rest'|].
      * apply (IH depth (skip_whitespace rest')). eauto.
      * right. exact (raise_errmsg_raises _ _ _ _ H).
    + inversion H; subst e'. apply (IH depth s). auto.
  - cbn [JSONObject] in H.
    destruct (after_prefix dq s) as [s1|];
      [|right; exact (raise_errmsg_raises _ _ _ _ H)].
    destruct (errors_at depth (scanstring (length s) [] s1))
      as [key rest| | |e'|] eqn:Ek; try discriminate.
    2:{ inversion H; subst e'. apply errors_at_raises in Ek as [Ek|Ek];
          [destruct (scanstring_no_raise _ _ _ _ Ek) | right; exact Ek]. }
    cbn [scan_bind] in H. cbv zeta in H.
    destruct (after_prefix (u ":") (skip_whitespace rest)) as [rest1|];
      [|right; exact (raise_errmsg_raises _ _ _ _ H)].
    destruct (scan_once fuel depth (skip_whitespace rest1))
      as [value rest2| | |e'|] eqn:E; try discriminate.
    + cbn [scan_bind] in H. cbv zeta in H.
      destruct (after_prefix (u "}") (skip_whitespace rest2)); [discriminate|].
      destruct (after_prefix (u ",") (skip_whitespace rest2)) as [rest3|].
      * apply (IH depth (skip_whitespace rest3)). eauto.
      * right. exact (raise_errmsg_raises _ _ _ _ H).
    + inversion H; subst e'. apply (IH depth (skip_whitespace rest1)). auto.
Qed.

Lemma raise_errmsg_cases {A : Type} (depth : nat) (msg : pystr) (n : nat) :
  @raise_errmsg A depth msg n = ScanError msg n
  \/ exists msg', @raise_errmsg A depth msg n = ScanRaise (RecursionError msg').
Proof. destruct depth as [|[|[|depth]]]; simpl; eauto. Qed.

(** [decode] comes to an end whatever the document, with a value and
    nothing after it, a [JSONDecodeError], the [ValueError] of an integer
    with too many digits or a [RecursionError]; the fuel of the recursion
    plays no part in it. *)
Lemma decode_total (depth : nat) (s : pystr) :
  (exists obj, decode depth s = Scanned obj [])
  \/ (exists msg remaining, decode depth s = ScanError msg remaining)
  \/ (exists digits,
        max_str_digits < digits
        /\ decode depth s = ScanRaise (int_too_long digits))
  \/ (exists msg, decode depth s = ScanRaise (RecursionError msg)).
Proof.
  unfold decode, raw_decode.
  destruct (scan_once (scan_fuel s) depth (skip_whitespace s))
    as [obj rest|msg remaining|remaining|e|] eqn:E.
  - cbn [scan_bind]. destruct (skip_whitespace rest) as [|end_ rest'];
      [left; eauto|].
    destruct (@raise_errmsg_cases pyjson (2 + depth) (u "Extra data")
                (length (end_ :: rest'))) as [->|[msg' ->]];
      [right; left | right; right; right]; eauto.
  - right; left; eauto.
  - destruct (@raise_errmsg_cases pyjson (1 + depth) (u "Expecting value")
                remaining) as [->|[msg' ->]];
      [right; left | right; right; right]; cbn [scan_bind]; eauto.
  - cbn [scan_bind].
    destruct (scan_raises _ _ _ e (or_introl E)) as [(n & Hn & ->)|[msg ->]];
      right; right; [left | right]; eauto.
  - destruct (scan_never_exhausted _ _ E).
Qed.

(** [json.loads] returns a value or raises a [JSONDecodeError] of the
    document, the [ValueError] of an integer with too many digits, or a
    [RecursionError]. *)
Lemma json_loads_total (depth : nat) (s : pystr) :
  (exists obj, json_loads_within depth s = inr obj)
  \/ (exists msg pos,
        json_loads_within depth s = inl (JSONDecodeError msg s pos))
  \/ (exists digits,
        max_str_digits < digits
        /\ json_loads_within depth s = inl (int_too_long digits))
  \/ (exists msg, json_loads_within depth s = inl (RecursionError msg)).
Proof.
  unfold json_loads_within.
  destruct (after_prefix [65279%N] s); [right; left; eauto|].
  destruct (decode_total depth s)
    as [[obj ->]|[(msg & remaining & ->)|[(n & Hn & ->)|[msg ->]]]];
    [left | right; left | right; right; left | right; right; right]; eauto.
Qed.

(** When [json.loads] returns: the document has no byte order mark, and
    the scanner reads a value that only white space follows. *)
Lemma json_loads_within_inr (depth : nat) (s : pystr) (J : pyjson) :
  json_loads_within depth s = inr J <->
  after_prefix [65279%N] s = None
  /\ exists rest,
       scan_once (scan_fuel s) depth (skip_whitespace s) = Scanned J rest
       /\ skip_whitespace rest = [].
Proof.
  unfold json_loads_within, decode, raw_decode.
  destruct (after_prefix [65279%N] s).
  { split; [discriminate | intros [H _]; discriminate]. }
  destruct (scan_once (scan_fuel s) depth (skip_whitespace s))
    as [obj rest|msg remaining|remaining|e|].
  - cbn [scan_bind]. destruct (skip_whitespace rest) as [|end_ rest'] eqn:Er.
    + split.
      * intros H; inversion H; subst. eauto.
      * intros (_ & rest' & H & _). inversion H; reflexivity.
    + split.
      * destruct (@raise_errmsg_cases pyjson (2 + depth) (u "Extra data")
                    (length (end_ :: rest'))) as [->|[msg' ->]]; discriminate.
      * intros (_ & rest'' & H & Hr). inversion H; subst. congruence.
  - split; [discriminate | intros (_ & rest & H & _); discriminate].
  - split; [|intros (_ & rest & H & _); discriminate].
    destruct (@raise_errmsg_cases pyjson (1 + depth) (u "Expecting value")
                remaining) as [->|[msg' ->]]; discriminate.
  - split; [discriminate | intros (_ & rest & H & _); discriminate].
  - split; [discriminate | intros (_ & rest & H & _); discriminate].
Qed.

Example json_loads_farmer_analysis :
  json_loads farmer_analysis_text = inr farmer_analysis.
Proof. vm_compute. reflexivity. Qed.

Example json_loads_last_key_wins :
  json_loads (jq "{'a': 1, 'b': [true, null], 'a': -2.5e3}")
  = inr (JObj [(u "a", JFloat (float_of_literal (u "-2.5e3")));
               (u "b", JArr [JBool true; JNull])]).
Proof. vm_compute. reflexivity. Qed.

Example json_loads_not_json :
  sum_map str id (json_loads (u "Sorry, I cannot help."))
  = inl (u "Expecting value: line 1 column 1 (char 0)").
Proof. vm_compute. reflexivity. Qed.

Example json_loads_too_many_digits :
  sum_map str id (json_loads (u "[" ++ repeat 57%N 4301 ++ u "]"))
  = inl (u "Exceeds the limit (4300 digits) for integer string conversion: value has 4301 digits; use sys.set_int_max_str_digits() to increase the limit").
Proof. vm_compute. reflexivity. Qed.

Example json_loads_too_deep :
  sum_map str id (json_loads (repeat 91%N 3000 ++ repeat 93%N 3000))
  = inl (u "maximum recursion depth exceeded while decoding a JSON array from a unicode string").
Proof. vm_compute. reflexivity. Qed.

Example json_loads_trailing_comma :
  sum_map str id (json_loads (jq "{'summary': 'x',}"))
  = inl (u "Expecting property name enclosed in double quotes: line 1 column 17 (char 16)").
Proof. vm_compute. reflexivity. Qed.

(** ** The rendering of a response: examples *)

Example render_compact :
  sum_map str id
    (render example_interpreter
       (JObj [(u "a", JArr [JInt 1; JNull; JBool true]);
              (u "b", JObj [(u "c", JStr (u "x" ++ nl))])]))
  = inr (jq "{'a':[1,null,true],'b':{'c':'x\n'}}").
Proof. vm_compute. reflexivity. Qed.

Example render_nan :
  sum_map str id (render example_interpreter (JArr [JInt 1; JFloat float_nan]))
  = inl (u "Out of range float values are not JSON compliant").
Proof. vm_compute. reflexivity. Qed.

Example render_overflow :
  sum_map str id
    (render example_interpreter (JFloat (float_of_literal (u "1e999"))))
  = inl (u "Out of range float values are not JSON compliant").
Proof. vm_compute. reflexivity. Qed.

Example render_lone_surrogate :
  sum_map str id
    (render example_interpreter (JObj [(u "a", JStr [55296%N])]))
  = inl (u "'utf-8' codec can't encode character '\ud800' in position 6: surrogates not allowed").
Proof. vm_compute. reflexivity. Qed.

(** ** What can be rendered *)

(** Induction on a value, with the items of arrays and objects. *)
Lemma json_ind_items {F : Type} (P : json F -> Prop) :
  P JNull -> (forall b, P (JBool b)) -> (forall z, P (JInt z)) ->
  (forall f, P (JFloat f)) -> (forall s, P (JStr s)) ->
  (forall l, Forall P l -> P (JArr l)) ->
  (forall d, Forall (fun kv => P kv.2) d -> P (JObj d)) ->
  forall o, P o.
Proof.
  intros HNull HBool HInt HFloat HStr HArr HObj.
  fix IH 1. intros [|b|z|f|s|l|d].
  - exact HNull.
  - apply HBool.
  - apply HInt.
  - apply HFloat.
  - apply HStr.
  - apply HArr. induction l as [|x l IHl]; constructor; [apply IH | exact IHl].
  - apply HObj. induction d as [|[k x] d IHd]; constructor;
      [apply IH | exact IHd].
Qed.

Lemma no_surrogate_app (a b : pystr) :
  no_surrogate (a ++ b) = no_surrogate a && no_surrogate b.
Proof. apply forallb_app. Qed.

Lemma no_surrogate_below (text : pystr) :
  Forall (fun c => (c < 55296)%N) text -> no_surrogate text = true.
Proof.
  intros H. apply forallb_forall. intros c Hc.
  rewrite Forall_forall in H. apply list_elem_of_In, H in Hc.
  unfold is_surrogate. apply negb_true_iff, andb_false_iff. left.
  apply N.leb_gt, Hc.
Qed.

Lemma no_surrogate_u (s : string) : no_surrogate (u s) = true.
Proof.
  apply no_surrogate_below. unfold u. apply Forall_map, Forall_forall.
  intros a _. simpl. pose proof (N_ascii_bounded a). lia.
Qed.

Lemma no_surrogate_u_escape (c : N) : no_surrogate (u_escape c) = true.
Proof.
  unfold u_escape. rewrite no_surrogate_app, no_surrogate_u.
  apply no_surrogate_below.
  assert (H : forall n, (hex_digit (N.land n 15) < 55296)%N).
  { intros n. unfold hex_digit.
    assert (N.land n 15 < 16)%N.
    { change 15%N with (N.ones 4). rewrite N.land_ones.
      apply N.mod_lt. discriminate. }
    destruct (_ <? _)%N; lia. }
  repeat constructor; apply H.
Qed.

Lemma no_surrogate_escape_char (c : N) :
  no_surrogate (escape_char c) = negb (is_surrogate c).
Proof.
  unfold escape_char.
  repeat (destruct (decide _) as [->|]; [reflexivity|]).
  destruct (c <? 32)%N eqn:E.
  - rewrite no_surrogate_u_escape. apply N.ltb_lt in E.
    symmetry. apply negb_true_iff, andb_false_iff. left. apply N.leb_gt. lia.
  - simpl. apply andb_true_r.
Qed.

Lemma no_surrogate_encode_basestring (s : pystr) :
  no_surrogate (encode_basestring s) = no_surrogate s.
Proof.
  unfold encode_basestring. rewrite !no_surrogate_app.
  change (no_surrogate dq) with true. rewrite andb_true_r. cbn [andb].
  induction s as [|c s IH]; [reflexivity|].
  cbn [map concat]. rewrite no_surrogate_app, no_surrogate_escape_char, IH.
  reflexivity.
Qed.

Lemma find_surrogates_none (pos : nat) (text : pystr) :
  find_surrogates pos text = None <-> no_surrogate text = true.
Proof.
  revert pos. induction text as [|c text IH]; intros pos; simpl; [tauto|].
  destruct (is_surrogate c); simpl; [split; discriminate | apply IH].
Qed.

Lemma join_results_cons (sep : pystr) (p : exception + pystr)
    (ps : list (exception + pystr)) :
  join_results sep (p :: ps)
  = match p with
    | inl e => inl e
    | inr x =>
        match ps with
        | [] => inr x
        | _ :: _ =>
            match join_results sep ps with
            | inl e => inl e
            | inr y => inr (x ++ sep ++ y)
            end
        end
    end.
Proof. destruct ps, p; reflexivity. Qed.

(** The items of a container at depth [d]: they are joined when every
    one is rendered. *)
Lemma join_results_items {X : Type} (g : X -> exception + pystr)
    (fin : X -> bool) (nest : X -> nat) (enc : X -> bool) (d : nat)
    (l : list X) :
  Forall (fun x =>
            match g x with
            | inr t => fin x = true /\ nest x <= d /\ no_surrogate t = enc x
            | inl _ => fin x = false \/ d < nest x
            end) l ->
  match join_results (u ",") (map g l) with
  | inr text =>
      forallb fin l = true
      /\ foldr Nat.max 0 (map nest l) <= d
      /\ no_surrogate text = forallb enc l
  | inl _ => forallb fin l = false \/ d < foldr Nat.max 0 (map nest l)
  end.
Proof.
  induction 1 as [|x l Hx Hl IH]; [simpl; auto with lia|].
  cbn [map]. rewrite join_results_cons. cbn [forallb foldr].
  destruct (g x) as [e|t].
  { destruct Hx as [->|Hx]; [left; reflexivity | right; lia]. }
  destruct Hx as (Hf & Hn & He). rewrite Hf, <- He. cbn [andb].
  destruct l as [|y l].
  { simpl. rewrite andb_true_r. auto with lia. }
  cbn [map] in IH |- *.
  destruct (join_results (u ",") (g y :: map g l)) as [e|text].
  { destruct IH as [IH|IH]; [left; exact IH | right; cbn [map foldr] in *; lia]. }
  destruct IH as (IHf & IHn & IHe).
  split; [exact IHf|]. split; [cbn [map foldr] in *; lia|].
  rewrite !no_surrogate_app, IHe. reflexivity.
Qed.

Lemma dumps_compact_spec (repr : pyfloat -> string) (o : pyjson) :
  forall depth,
    match dumps_compact repr depth o with
    | inr text =>
        all_finite o = true /\ nesting o <= depth
        /\ no_surrogate text = encodable o
    | inl _ => all_finite o = false \/ depth < nesting o
    end.
Proof.
  induction o as [|b|z|f|s|l IH|d IH] using json_ind_items; intros depth.
  - simpl. auto with lia.
  - destruct b; simpl; auto with lia.
  - cbn [dumps_compact all_finite nesting encodable].
    unfold int_repr. rewrite no_surrogate_u. auto with lia.
  - cbn [dumps_compact all_finite nesting encodable].
    destruct (is_finite f); [|left; reflexivity].
    rewrite no_surrogate_u. auto with lia.
  - cbn [dumps_compact all_finite nesting encodable].
    rewrite no_surrogate_encode_basestring. auto with lia.
  - cbn [dumps_compact all_finite nesting encodable].
    destruct depth as [|depth]; [right; lia|].
    pose proof (join_results_items (dumps_compact repr depth) all_finite
                  nesting encodable depth l) as H.
    destruct (join_results (u ",") (map (dumps_compact repr depth) l))
      as [e|items].
    + destruct H as [H|H]; [|left; exact H|right; lia].
      eapply Forall_impl; [exact IH|]. intros x Hx. apply Hx.
    + destruct H as (Hf & Hn & He).
      { eapply Forall_impl; [exact IH|]. intros x Hx. apply Hx. }
      split; [exact Hf|]. split; [lia|].
      rewrite !no_surrogate_app, He. cbn. apply andb_true_r.
  - cbn [dumps_compact all_finite nesting encodable].
    destruct depth as [|depth]; [right; lia|].
    pose proof (join_results_items
                  (fun kv : pystr * pyjson =>
                     match dumps_compact repr depth kv.2 with
                     | inl e => inl e
                     | inr value =>
                         inr (encode_basestring kv.1 ++ u ":" ++ value)
                     end)
                  (fun kv => all_finite kv.2) (fun kv => nesting kv.2)
                  (fun kv => no_surrogate kv.1 && encodable kv.2) depth d)
      as H.
    assert (Hitems :
      Forall (fun kv : pystr * pyjson =>
                match
                  match dumps_compact repr depth kv.2 with
                  | inl e => inl e
                  | inr value =>
                      inr (encode_basestring kv.1 ++ u ":" ++ value)
                  end
                with
                | inr t =>
                    all_finite kv.2 = true /\ nesting kv.2 <= depth
                    /\ no_surrogate t = no_surrogate kv.1 && encodable kv.2
                | inl _ => all_finite kv.2 = false \/ depth < nesting kv.2
                end) d).
    { eapply Forall_impl; [exact IH|]. intros [k x] Hx. cbn [fst snd] in *.
      specialize (Hx depth).
      destruct (dumps_compact repr depth x) as [e|value]; [exact Hx|].
      destruct Hx as (Hf & Hn & He). split; [exact Hf|]. split; [exact Hn|].
      rewrite !no_surrogate_app, no_surrogate_encode_basestring, He.
      reflexivity. }
    specialize (H Hitems).
    match type of H with
    | match ?X with _ => _ end =>
        match goal with
        | |- context [match ?Y with inl _ => _ | inr _ => _ end] =>
            change Y with X; destruct X as [e|items]
        end
    end.
    + destruct H as [H|H]; [left; exact H | right; lia].
    + destruct H as (Hf & Hn & He).
      split; [exact Hf|]. split; [lia|].
      rewrite !no_surrogate_app, He. cbn. apply andb_true_r.
Qed.

(** A [JSONResponse] is built exactly from the values that are
    [renderable]. *)
Lemma render_inr_iff (py : Interpreter) (o : pyjson) :
  (exists rendered, render py o = inr rendered) <-> renderable py o = true.
Proof.
  unfold render, renderable.
  pose proof (dumps_compact_spec (float_repr py) o (encode_depth py)) as H.
  destruct (dumps_compact (float_repr py) (encode_depth py) o) as [e|text].
  - split; [intros [rendered Hr]; discriminate|].
    intros Hr. apply andb_true_iff in Hr as [Hr _].
    apply andb_true_iff in Hr as [Hf Hn]. apply Nat.leb_le in Hn.
    destruct H as [H|H]; [congruence | lia].
  - destruct H as (Hf & Hn & He). rewrite Hf, <- He.
    apply Nat.leb_le in Hn. rewrite Hn. cbn [andb].
    pose proof (find_surrogates_none 0 text) as Hs.
    destruct (find_surrogates 0 text) as [[start stop]|].
    + split; [intros [rendered Hr]; discriminate|].
      intros Hr. apply Hs in Hr. discriminate.
    + split; [intros _; apply Hs; reflexivity | eauto].
Qed.

Lemma render_inl_iff (py : Interpreter) (o : pyjson) :
  (exists e, render py o = inl e) <-> renderable py o = false.
Proof.
  split.
  - intros [e He]. destruct (renderable py o) eqn:R; [|reflexivity].
    apply render_inr_iff in R as [rendered Hr]. congruence.
  - intros R. destruct (render py o) as [e|rendered] eqn:Hr; [eauto|].
    assert (renderable py o = true) by (apply render_inr_iff; eauto).
    congruence.
Qed.

(** ** The handler, step by step *)

Lemma analyze_try_run (py : Interpreter) (model : GenerativeModel)
    (request : AnalysisRequest) (w : World) :
  analyze_try py model request w =
  (match provider_text model w request with
   | inl e => Raise e
   | inr response_text =>
       match json_loads_within (decode_depth py) response_text with
       | inl e => Raise e
       | inr parsed_response =>
           match render py parsed_response with
           | inl e => Raise e
           | inr _ =>
               Return {| content := parsed_response; status_code := 200 |}
           end
       end
   end, after_call w request).
Proof.
  unfold analyze_try, provider_text, after_call, analyze_call.
  unfold mbind, M_bind, generate_content_async.
  destruct (model _ _ _) as [e|response]; [reflexivity|].
  destruct (text response) as [e|t]; [reflexivity|]. simpl.
  destruct (json_loads_within _ t) as [e|J]; [reflexivity|]. simpl.
  unfold new_JSONResponse. destruct (render py J); reflexivity.
Qed.

Lemma analyze_unstructured_data_run (py : Interpreter)
    (model : GenerativeModel) (request : AnalysisRequest) (w : World) :
  analyze_unstructured_data py model request w =
  match analyze_try py model request w with
  | (Return response, w') => (Return response, w')
  | (Raise e, w') =>
      (Raise (HTTPException 500 (u "An internal error occurred: " ++ str e)),
       after_print w' (u "An error occurred: " ++ str e))
  end.
Proof.
  unfold analyze_unstructured_data, try_except.
  destruct (analyze_try py model request w) as [[response|e] w']; reflexivity.
Qed.

(** The route for a body that passes validation. *)
Lemma post_analyze_run (py : Interpreter) (model : GenerativeModel)
    (request_body : pyjson) (request : AnalysisRequest) (w : World) :
  validate_AnalysisRequest request_body = inr request ->
  post_analyze py model request_body w =
  match analyze_try py model request w with
  | (Return response, w') =>
      (Return {| status := status_code response; body := content response |},
       w')
  | (Raise e, w') =>
      (Return
         {| status := 500;
            body :=
              JObj [(u "detail",
                      JStr (u "An internal error occurred: " ++ str e))] |},
       after_print w' (u "An error occurred: " ++ str e))
  end.
Proof.
  intros Hv. unfold post_analyze. rewrite Hv.
  rewrite analyze_unstructured_data_run.
  destruct (analyze_try py model request w) as [[response|e] w']; reflexivity.
Qed.

(** What validation accepts: an object with a string under
    [unstructured_text] and, under [context], a string or nothing. *)
Lemma validate_AnalysisRequest_inr (request_body : pyjson)
    (request : AnalysisRequest) :
  validate_AnalysisRequest request_body = inr request <->
  exists d,
    request_body = JObj d
    /\ dict_get (u "unstructured_text") d
       = Some (JStr (unstructured_text request))
    /\ match dict_get (u "context") d with
       | None => context request = default_context
       | Some value => value = JStr (context request)
       end.
Proof.
  destruct request as [t c]; simpl. split.
  - intros H. destruct request_body as [| | | | |l|d]; try discriminate.
    exists d. split; [reflexivity|]. unfold validate_AnalysisRequest in H.
    destruct (dict_get (u "unstructured_text") d) as [[]|];
      destruct (dict_get (u "context") d) as [[]|];
      simpl in H; try discriminate; inversion H; auto.
  - intros (d & -> & Ht & Hc). unfold validate_AnalysisRequest.
    rewrite Ht. destruct (dict_get (u "context") d) as [value|];
      subst; reflexivity.
Qed.

(** The world after the [try] statement: the provider has received the
    call of the handler, whatever came of it. *)
Lemma analyze_try_world (py : Interpreter) (model : GenerativeModel)
    (request : AnalysisRequest) (w : World) :
  (analyze_try py model request w).2 = after_call w request.
Proof. rewrite analyze_try_run. reflexivity. Qed.

(** The calls that the provider has received after a request that passes
    validation: one more, the call of the handler. *)
Lemma post_analyze_calls (py : Interpreter) (model : GenerativeModel)
    (request_body : pyjson) (request : AnalysisRequest) (w : World) :
  validate_AnalysisRequest request_body = inr request ->
  provider_calls (post_analyze py model request_body w).2
  = provider_calls w ++ [analyze_call request].
Proof.
  intros Hv. rewrite (post_analyze_run _ _ _ _ _ Hv).
  pose proof (analyze_try_world py model request w) as Hw.
  destruct (analyze_try py model request w) as [[response|e] w'];
    simpl in Hw; subst w'; reflexivity.
Qed.

(** A body that fails validation is answered with status 422 and the
    world is left as it was. *)
Lemma post_analyze_invalid (py : Interpreter) (model : GenerativeModel)
    (request_body : pyjson) (errors : list pyjson) (w : World) :
  validate_AnalysisRequest request_body = inl errors ->
  post_analyze py model request_body w
  = (Return {| status := 422; body := JObj [(u "detail", JArr errors)] |}, w).
Proof. intros Hv. unfold post_analyze. rewrite Hv. reflexivity. Qed.

(** The places where the [try] statement can raise: the provider, the
    decoder, the building of the response. *)
Lemma analyze_try_raises (py : Interpreter) (model : GenerativeModel)
    (request : AnalysisRequest) (w : World) (e : exception) (w' : World) :
  analyze_try py model request w = (Raise e, w') <->
  w' = after_call w request
  /\ (provider_text model w request = inl e
      \/ exists response_text,
           provider_text model w request = inr response_text
           /\ (json_loads_within (decode_depth py) response_text = inl e
               \/ exists J,
                    json_loads_within (decode_depth py) response_text = inr J
                    /\ render py J = inl e)).
Proof.
  rewrite analyze_try_run.
  destruct (provider_text model w request) as [e0|t].
  - split.
    + intros H; inversion H; auto.
    + intros [-> [H|(t & H & _)]]; congruence.
  - destruct (json_loads_within (decode_depth py) t) as [e0|J] eqn:HJ.
    + split.
      * intros H; inversion H; subst. split; [reflexivity|]. right; eauto.
      * intros [-> [H|(t' & H & [H'|(J & H' & _)])]]; congruence.
    + destruct (render py J) as [e0|rendered] eqn:HR; split.
      * intros H; inversion H; subst. split; [reflexivity|].
        right. exists t. split; [reflexivity|]. right. eauto.
      * intros [-> [H|(t' & H & [H'|(J' & H' & H'')])]]; congruence.
      * intros H; inversion H.
      * intros [-> [H|(t' & H & [H'|(J' & H' & H'')])]]; congruence.
Qed.

(** The one way in which the [try] statement returns. *)
Lemma analyze_try_returns (py : Interpreter) (model : GenerativeModel)
    (request : AnalysisRequest) (w : World) (response : JSONResponse)
    (w' : World) :
  analyze_try py model request w = (Return response, w') <->
  w' = after_call w request
  /\ status_code response = 200%Z
  /\ exists response_text rendered,
       provider_text model w request = inr response_text
       /\ json_loads_within (decode_depth py) response_text
          = inr (content response)
       /\ render py (content response) = inr rendered.
Proof.
  rewrite analyze_try_run.
  destruct (provider_text model w request) as [e0|t].
  { split; [intros H; inversion H|].
    intros (_ & _ & t & rendered & H & _); discriminate. }
  destruct (json_loads_within (decode_depth py) t) as [e0|J] eqn:HJ.
  { split; [intros H; inversion H|].
    intros (_ & _ & t' & rendered & H & H' & _); congruence. }
  destruct (render py J) as [e0|rendered] eqn:HR.
  { split; [intros H; inversion H|].
    intros (_ & _ & t' & rendered & H & H' & H''). congruence. }
  split.
  - intros H; inversion H; subst; simpl. eauto 8.
  - intros (-> & Hs & t' & rendered' & H & H' & H'').
    destruct response as [c sc]; simpl in *. subst sc. congruence.
Qed.

(** ** The claims of the specification *)

(** What the handler does with a text that [json.loads] decodes: the
    response is built, or the rendering raises. *)
Lemma analyze_try_decoded (py : Interpreter) (model : GenerativeModel)
    (request : AnalysisRequest) (w : World) (response_text : pystr)
    (J : pyjson) :
  provider_text model w request = inr response_text ->
  json_loads_within (decode_depth py) response_text = inr J ->
  analyze_try py model request w
  = (match render py J with
     | inl e => Raise e
     | inr _ => Return {| content := J; status_code := 200 |}
     end, after_call w request).
Proof. intros Hp HJ. rewrite analyze_try_run, Hp, HJ. reflexivity. Qed.

(** C1 as the specification states it fails: the text
    [{"summary": 1e999}] is a JSON document and [json.loads] decodes it,
    to an object that holds an infinite float; the [JSONResponse] cannot
    be built from it, and the response has status 500. *)
Lemma parsed_json_counterexample :
  json_loads_within (decode_depth example_interpreter)
    (jq "{'summary': 1e999}")
  = inr (JObj [(u "summary", JFloat (float_of_literal (u "1e999")))])
  /\ post_analyze example_interpreter (stub_model (jq "{'summary': 1e999}"))
       farmer_body initial_world
     = (Return
          {| status := 500;
             body :=
               JObj [(u "detail",
                       JStr (u "An internal error occurred: Out of range float values are not JSON compliant"))] |},
        after_print (after_call initial_world farmer_request)
          (u "An error occurred: Out of range float values are not JSON compliant"))
  /\ ~ (forall py model request_body request w response response_text J,
          validate_AnalysisRequest request_body = inr request ->
          model (provider_calls w) (prompt request)
            [(u "response_mime_type", u "application/json")] = inr response ->
          text response = inr response_text ->
          json_loads_within (decode_depth py) response_text = inr J ->
          post_analyze py model request_body w
          = (Return {| status := 200; body := J |}, after_call w request)).
Proof.
  assert (HJ : json_loads_within (decode_depth example_interpreter)
                 (jq "{'summary': 1e999}")
               = inr (JObj [(u "summary",
                              JFloat (float_of_literal (u "1e999")))]))
    by (vm_compute; reflexivity).
  assert (Hpost : post_analyze example_interpreter
                    (stub_model (jq "{'summary': 1e999}")) farmer_body
                    initial_world
                  = (Return
                       {| status := 500;
                          body :=
                            JObj [(u "detail",
                                    JStr (u "An internal error occurred: Out of range float values are not JSON compliant"))] |},
                     after_print (after_call initial_world farmer_request)
                       (u "An error occurred: Out of range float values are not JSON compliant")))
    by (vm_compute; reflexivity).
  split; [exact HJ|]. split; [exact Hpost|].
  intros H.
  specialize (H example_interpreter (stub_model (jq "{'summary': 1e999}"))
                farmer_body farmer_request initial_world
                {| text := inr (jq "{'summary': 1e999}") |}
                (jq "{'summary': 1e999}") _ eq_refl eq_refl eq_refl HJ).
  rewrite Hpost in H. discriminate H.
Qed.

(** C1, amended: for every request that [POST /analyze] accepts, when
    the provider answers with a text that [json.loads] decodes to a value
    [J] from which the response can be built (every float of [J] is
    finite, no string or key holds a surrogate, and [J] is not nested
    deeper than the encoder may go), the response has status 200 and its
    body is [J] itself; the world has seen the one call of the handler
    and nothing was printed.  When the response cannot be built from [J],
    the rendering raises and the response has status 500. *)
Theorem post_analyze_returns_parsed_json (py : Interpreter)
    (model : GenerativeModel) (request_body : pyjson)
    (request : AnalysisRequest) (w : World)
    (response : GenerateContentResponse) (response_text : pystr) (J : pyjson) :
  validate_AnalysisRequest request_body = inr request ->
  model (provider_calls w) (prompt request)
    [(u "response_mime_type", u "application/json")] = inr response ->
  text response = inr response_text ->
  json_loads_within (decode_depth py) response_text = inr J ->
  (renderable py J = true ->
   post_analyze py model request_body w
   = (Return {| status := 200; body := J |}, after_call w request))
  /\ (renderable py J = false ->
      exists e,
        render py J = inl e
        /\ post_analyze py model request_body w
           = (Return
                {| status := 500;
                   body :=
                     JObj [(u "detail",
                             JStr (u "An internal error occurred: " ++ str e))] |},
              after_print (after_call w request)
                (u "An error occurred: " ++ str e))).
Proof.
  intros Hv Hm Ht HJ.
  assert (Hp : provider_text model w request = inr response_text)
    by (unfold provider_text; rewrite Hm; exact Ht).
  rewrite (post_analyze_run _ _ _ _ _ Hv), (analyze_try_decoded _ _ _ _ _ _ Hp HJ).
  split.
  - intros Hr. apply render_inr_iff in Hr as [rendered ->]. reflexivity.
  - intros Hr. apply render_inl_iff in Hr as [e He]. exists e.
    rewrite He. auto.
Qed.

Lemma post_analyze_returns_parsed_json_witness :
  post_analyze example_interpreter (stub_model farmer_analysis_text)
    farmer_body initial_world
  = (Return {| status := 200; body := farmer_analysis |},
     after_call initial_world farmer_request).
Proof.
  apply (proj1 (post_analyze_returns_parsed_json example_interpreter
                  (stub_model farmer_analysis_text) farmer_body farmer_request
                  initial_world {| text := inr farmer_analysis_text |}
                  farmer_analysis_text farmer_analysis
                  ltac:(vm_compute; reflexivity) ltac:(vm_compute; reflexivity)
                  ltac:(vm_compute; reflexivity)
                  ltac:(vm_compute; reflexivity)));
    vm_compute; reflexivity.
Defined.

Example post_analyze_lone_surrogate :
  (post_analyze example_interpreter (stub_model (jq "{'summary': '\ud800'}"))
     farmer_body initial_world).1
  = Return
      {| status := 500;
         body :=
           JObj [(u "detail",
                   JStr (u "An internal error occurred: 'utf-8' codec can't encode character '\ud800' in position 12: surrogates not allowed"))] |}.
Proof. vm_compute. reflexivity. Qed.

Example post_analyze_deep_nesting :
  (post_analyze example_interpreter
     (stub_model (repeat 91%N 3000 ++ repeat 93%N 3000))
     farmer_body initial_world).1
  = Return
      {| status := 500;
         body :=
           JObj [(u "detail",
                   JStr (u "An internal error occurred: maximum recursion depth exceeded while decoding a JSON array from a unicode string"))] |}.
Proof. vm_compute. reflexivity. Qed.



(** C3: the prompt that the provider receives holds the
    [unstructured_text] of the request body as it is, between the two
    [---] lines of the template. *)
Theorem prompt_contains_unstructured_text (py : Interpreter) (model : GenerativeModel)
    (request_body : pyjson) (request : AnalysisRequest) (w : World) :
  validate_AnalysisRequest request_body = inr request ->
  (exists d,
     request_body = JObj d
     /\ dict_get (u "unstructured_text") d
        = Some (JStr (unstructured_text request)))
  /\ exists before,
       provider_calls (post_analyze py model request_body w).2
       = provider_calls w
         ++ [{| call_prompt :=
                  before ++ u "        ---" ++ nl
                  ++ u "        " ++ unstructured_text request ++ nl
                  ++ u "        ---" ++ nl
                  ++ u "        ";
                call_generation_config :=
                  [(u "response_mime_type", u "application/json")] |}].
Proof.
  intros Hv. split.
  - apply validate_AnalysisRequest_inr in Hv as (d & Hd & Ht & _). eauto.
  - rewrite (post_analyze_calls _ _ _ _ _ Hv).
    unfold analyze_call, prompt.
    eexists. do 2 f_equal.
    rewrite !(app_assoc _ _ (u "        ---" ++ _)).
    reflexivity.
Qed.

Lemma prompt_contains_unstructured_text_witness :
  exists before,
    provider_calls
      (post_analyze example_interpreter (stub_model farmer_analysis_text) farmer_body
         initial_world).2
    = provider_calls initial_world
      ++ [{| call_prompt :=
               before ++ u "        ---" ++ nl
               ++ u "        "
               ++ u "Farmer took a 50000 INR loan at 12% interest." ++ nl
               ++ u "        ---" ++ nl
               ++ u "        ";
             call_generation_config :=
               [(u "response_mime_type", u "application/json")] |}].
Proof.
  apply (proj2 (prompt_contains_unstructured_text example_interpreter
                  (stub_model farmer_analysis_text) farmer_body
                  farmer_request initial_world eq_refl)).
Defined.

(** C4: when the body has no [context], the prompt that the provider
    receives is the template filled with the default domain string; when
    the body supplies a string, it is the template filled with that string.
    In the template the context stands right after the opening sentence,
    between apostrophes. *)
Theorem prompt_contains_context (py : Interpreter) (model : GenerativeModel)
    (d : list (pystr * pyjson)) (t : pystr) (w : World) :
  dict_get (u "unstructured_text") d = Some (JStr t) ->
  (dict_get (u "context") d = None ->
   provider_calls (post_analyze py model (JObj d) w).2
   = provider_calls w
     ++ [analyze_call {| unstructured_text := t;
                         context :=
                           u "rural loans and government schemes in India" |}])
  /\ (forall c,
        dict_get (u "context") d = Some (JStr c) ->
        provider_calls (post_analyze py model (JObj d) w).2
        = provider_calls w
          ++ [analyze_call {| unstructured_text := t; context := c |}])
  /\ (forall c, exists rest,
        call_prompt (analyze_call {| unstructured_text := t; context := c |})
        = nl
          ++ u "        Analyze the following unstructured text regarding financial matters, specifically in the context of '"
          ++ c ++ u "'." ++ nl ++ rest).
Proof.
  intros Ht. repeat split.
  - intros Hc. apply post_analyze_calls.
    apply validate_AnalysisRequest_inr. exists d.
    split; [reflexivity|]. split; [exact Ht|]. rewrite Hc. reflexivity.
  - intros c Hc. apply post_analyze_calls.
    apply validate_AnalysisRequest_inr. exists d.
    split; [reflexivity|]. split; [exact Ht|]. rewrite Hc. reflexivity.
  - intros c. eexists. reflexivity.
Qed.

Lemma prompt_contains_context_witness :
  provider_calls
    (post_analyze example_interpreter (stub_model farmer_analysis_text) farmer_body
       initial_world).2
  = provider_calls initial_world
    ++ [analyze_call
          {| unstructured_text :=
               u "Farmer took a 50000 INR loan at 12% interest.";
             context := u "rural loans and government schemes in India" |}].
Proof.
  apply (proj1 (prompt_contains_context example_interpreter
                  (stub_model farmer_analysis_text)
                  [(u "unstructured_text",
                     JStr (u "Farmer took a 50000 INR loan at 12% interest."))]
                  (u "Farmer took a 50000 INR loan at 12% interest.")
                  initial_world eq_refl)).
  reflexivity.
Defined.

Example prompt_with_supplied_context :
  provider_calls
    (post_analyze example_interpreter (stub_model farmer_analysis_text)
       (JObj [(u "unstructured_text", JStr (u "text"));
              (u "context", JStr (u "urban micro-credit"))])
       initial_world).2
  = [analyze_call {| unstructured_text := u "text";
                     context := u "urban micro-credit" |}].
Proof. vm_compute. reflexivity. Qed.

(** C5 as the specification states it fails: the provider gives the
    text [NaN], [json.loads] decodes it, and the handler raises all the
    same, because no [JSONResponse] is built from a float that is not
    finite. *)
Lemma analyze_error_counterexample :
  provider_text (stub_model (u "NaN")) initial_world farmer_request
  = inr (u "NaN")
  /\ json_loads_within (decode_depth example_interpreter) (u "NaN")
     = inr (JFloat float_nan)
  /\ (analyze_unstructured_data example_interpreter (stub_model (u "NaN"))
        farmer_request initial_world).1
     = Raise
         (HTTPException 500
            (u "An internal error occurred: Out of range float values are not JSON compliant"))
  /\ ~ (forall py model request w,
          (exists e, (analyze_unstructured_data py model request w).1 = Raise e)
          <-> (exists e, provider_text model w request = inl e)
              \/ (exists response_text e,
                    provider_text model w request = inr response_text
                    /\ json_loads_within (decode_depth py) response_text
                       = inl e)).
Proof.
  assert (HJ : json_loads_within (decode_depth example_interpreter) (u "NaN")
               = inr (JFloat float_nan))
    by (vm_compute; reflexivity).
  assert (Hrun : (analyze_unstructured_data example_interpreter
                    (stub_model (u "NaN")) farmer_request initial_world).1
                 = Raise
                     (HTTPException 500
                        (u "An internal error occurred: Out of range float values are not JSON compliant")))
    by (vm_compute; reflexivity).
  split; [reflexivity|]. split; [exact HJ|]. split; [exact Hrun|].
  intros H.
  destruct (proj1 (H example_interpreter (stub_model (u "NaN")) farmer_request
                     initial_world))
    as [[e He]|(response_text & e & Hp & He)].
  - rewrite Hrun. eauto.
  - discriminate He.
  - inversion Hp; subst response_text. rewrite HJ in He. discriminate He.
Qed.

(** C5, amended: the handler raises exactly when the provider gives no
    text (its call or the reading of the text raises), or the text is not
    decoded by [json.loads], or the response cannot be built from the
    decoded value (a float that is not finite, a surrogate in a string or
    a key, more nesting than the encoder may go into); any text that is
    decoded to a value from which the response can be built is returned
    with status 200 whatever fields the value has, no check against the
    schema is made. *)
Theorem analyze_error_iff (py : Interpreter) (model : GenerativeModel)
    (request : AnalysisRequest) (w : World) :
  ((exists e, (analyze_unstructured_data py model request w).1 = Raise e)
   <-> (exists e, provider_text model w request = inl e)
       \/ (exists response_text e,
             provider_text model w request = inr response_text
             /\ json_loads_within (decode_depth py) response_text = inl e)
       \/ (exists response_text J,
             provider_text model w request = inr response_text
             /\ json_loads_within (decode_depth py) response_text = inr J
             /\ renderable py J = false))
  /\ (forall response_text J,
        provider_text model w request = inr response_text ->
        json_loads_within (decode_depth py) response_text = inr J ->
        renderable py J = true ->
        (analyze_unstructured_data py model request w).1
        = Return {| content := J; status_code := 200 |}).
Proof.
  rewrite analyze_unstructured_data_run, analyze_try_run.
  destruct (provider_text model w request) as [e|t].
  { split.
    - split; [intros _; left; eauto | intros _; eauto].
    - intros t J H; discriminate. }
  destruct (json_loads_within (decode_depth py) t) as [e|J] eqn:HJ.
  { split.
    - split; [intros _; right; left; eauto | intros _; eauto].
    - intros t' J H HJ'. inversion H; subst. congruence. }
  pose proof (render_inr_iff py J) as Hok.
  pose proof (render_inl_iff py J) as Hno.
  destruct (render py J) as [e|rendered]; split.
  - split; [intros _ | intros _; eauto].
    right; right. exists t, J. split; [reflexivity|]. split; [exact HJ|].
    apply Hno. eauto.
  - intros t' J' H HJ' Hr. inversion H; subst t'.
    rewrite HJ in HJ'. inversion HJ'; subst J'.
    apply Hok in Hr as [rendered Hr]. discriminate.
  - split; [intros [e H]; discriminate|].
    intros [[e H]|[(t' & e & H & H')|(t' & J' & H & H' & Hr)]];
      [discriminate | inversion H; subst; congruence |].
    inversion H; subst t'. rewrite HJ in H'. inversion H'; subst J'.
    apply Hno in Hr as [e He]. discriminate.
  - intros t' J' H HJ' _. inversion H; subst t'.
    rewrite HJ in HJ'. inversion HJ'; subst. reflexivity.
Qed.

Lemma analyze_error_iff_witness :
  (analyze_unstructured_data example_interpreter
     (stub_model (jq "{'sentiment': 7}")) farmer_request initial_world).1
  = Return {| content := JObj [(u "sentiment", JInt 7)]; status_code := 200 |}.
Proof.
  apply (proj2 (analyze_error_iff example_interpreter
                  (stub_model (jq "{'sentiment': 7}")) farmer_request
                  initial_world)
           (jq "{'sentiment': 7}") (JObj [(u "sentiment", JInt 7)]));
    vm_compute; reflexivity.
Defined.

(** C6 as the specification states it fails: an empty object omits every
    field of the schema, is decoded without error, and the handler returns
    it with status 200 instead of raising. *)
Lemma omitted_fields_counterexample :
  json_loads_within (decode_depth example_interpreter) (u "{}")
  = inr (JObj [])
  /\ omits_required_field (JObj []) = true
  /\ analyze_unstructured_data example_interpreter (stub_model (u "{}"))
       farmer_request initial_world
     = (Return {| content := JObj []; status_code := 200 |},
        after_call initial_world farmer_request)
  /\ ~ (forall py model request w response_text J,
          provider_text model w request = inr response_text ->
          json_loads_within (decode_depth py) response_text = inr J ->
          omits_required_field J = true ->
          exists e, (analyze_unstructured_data py model request w).1 = Raise e).
Proof.
  assert (HJ : json_loads_within (decode_depth example_interpreter) (u "{}")
               = inr (JObj []))
    by (vm_compute; reflexivity).
  assert (Ho : omits_required_field (JObj []) = true)
    by (vm_compute; reflexivity).
  assert (Hrun : analyze_unstructured_data example_interpreter
                   (stub_model (u "{}")) farmer_request initial_world
                 = (Return {| content := JObj []; status_code := 200 |},
                    after_call initial_world farmer_request))
    by (vm_compute; reflexivity).
  split; [exact HJ|]. split; [exact Ho|]. split; [exact Hrun|].
  intros H.
  destruct (H example_interpreter (stub_model (u "{}")) farmer_request
              initial_world (u "{}") (JObj []) eq_refl HJ Ho) as [e He].
  rewrite Hrun in He. discriminate He.
Qed.

(** C6, amended: a decoded object that omits fields of the schema is
    treated as any other decoded value, nothing compares it with the
    schema: it is returned as a success, status 200 with the object as
    content, when the response can be built from it, and otherwise the
    handler fails on the rendering, not on the omission. *)
Theorem analyze_accepts_omitted_fields (py : Interpreter)
    (model : GenerativeModel) (request : AnalysisRequest) (w : World)
    (response_text : pystr) (J : pyjson) :
  provider_text model w request = inr response_text ->
  json_loads_within (decode_depth py) response_text = inr J ->
  omits_required_field J = true ->
  (renderable py J = true ->
   analyze_unstructured_data py model request w
   = (Return {| content := J; status_code := 200 |}, after_call w request))
  /\ (renderable py J = false ->
      exists e,
        render py J = inl e
        /\ analyze_unstructured_data py model request w
           = (Raise
                (HTTPException 500
                   (u "An internal error occurred: " ++ str e)),
              after_print (after_call w request)
                (u "An error occurred: " ++ str e))).
Proof.
  intros Ht HJ _.
  rewrite analyze_unstructured_data_run,
    (analyze_try_decoded _ _ _ _ _ _ Ht HJ).
  split.
  - intros Hr. apply render_inr_iff in Hr as [rendered ->]. reflexivity.
  - intros Hr. apply render_inl_iff in Hr as [e He]. exists e.
    rewrite He. auto.
Qed.

Lemma analyze_accepts_omitted_fields_witness :
  analyze_unstructured_data example_interpreter
    (stub_model (jq "{'summary': 'ok'}")) farmer_request initial_world
  = (Return {| content := JObj [(u "summary", JStr (u "ok"))];
               status_code := 200 |},
     after_call initial_world farmer_request).
Proof.
  apply (proj1 (analyze_accepts_omitted_fields example_interpreter
                  (stub_model (jq "{'summary': 'ok'}")) farmer_request
                  initial_world (jq "{'summary': 'ok'}")
                  (JObj [(u "summary", JStr (u "ok"))])
                  ltac:(vm_compute; reflexivity)
                  ltac:(vm_compute; reflexivity)
                  ltac:(vm_compute; reflexivity)));
    vm_compute; reflexivity.
Defined.

(** C7 as the specification states it fails: with the variable present
    in the environment but empty, the module raises at import just as when
    it is absent. *)
Lemma startup_empty_key_counterexample :
  is_Some (empty_key_environ !! u "GEMINI_API_KEY")
  /\ startup empty_key_environ
     = inl (ValueError (u "GEMINI_API_KEY environment variable not set."))
  /\ ~ (forall environ : gmap pystr pystr,
          is_Some (environ !! u "GEMINI_API_KEY") ->
          exists service, startup environ = inr service).
Proof.
  assert (Hk : empty_key_environ !! u "GEMINI_API_KEY" = Some [])
    by apply lookup_singleton_eq.
  assert (Hs : startup empty_key_environ
               = inl (ValueError
                        (u "GEMINI_API_KEY environment variable not set.")))
    by (unfold startup; rewrite Hk; reflexivity).
  split; [|split].
  - exists []. exact Hk.
  - exact Hs.
  - intros H. destruct (H empty_key_environ) as [service Hs'].
    + exists []. exact Hk.
    + rewrite Hs in Hs'. discriminate.
Qed.

(** C7, amended: the module raises [ValueError] at import, before the
    application serves anything, when [GEMINI_API_KEY] is absent from the
    environment or empty; when it holds a non-empty value, start-up goes on
    with that value as the key of the provider and the model
    [gemini-1.5-flash-001]. *)
Theorem startup_requires_api_key (environ : gmap pystr pystr) :
  match environ !! u "GEMINI_API_KEY" with
  | None | Some [] =>
      startup environ
      = inl (ValueError (u "GEMINI_API_KEY environment variable not set."))
  | Some (c :: key) =>
      startup environ
      = inr {| api_key := c :: key; model_name := u "gemini-1.5-flash-001" |}
  end.
Proof.
  unfold startup.
  destruct (environ !! u "GEMINI_API_KEY") as [[|c key]|]; reflexivity.
Qed.

(** C8: [GET /] answers 200 with the object that holds
    [Agent is running] under [status], in every world and whatever the
    provider has done; it takes no input, never raises and leaves the
    world as it is. *)
Theorem get_root_always_running (w : World) :
  get_root w
  = (Return {| status := 200;
               body := JObj [(u "status", JStr (u "Agent is running"))] |},
     w)
  /\ forall (py : Interpreter) (model : GenerativeModel)
            (request_body : pyjson),
       (get_root (post_analyze py model request_body w).2).1 = (get_root w).1.
Proof. split; reflexivity. Qed.

(** C9: the handler calls the provider exactly once, whether it then
    succeeds or fails, and a request to [POST /analyze] adds at most one
    call to those that the provider has received: none when validation
    rejects the body, one otherwise. *)
Theorem provider_called_at_most_once (py : Interpreter)
    (model : GenerativeModel) (w : World) :
  (forall request,
     provider_calls (analyze_unstructured_data py model request w).2
     = provider_calls w ++ [analyze_call request])
  /\ (forall request_body,
        provider_calls (post_analyze py model request_body w).2
        = provider_calls w
          ++ match validate_AnalysisRequest request_body with
             | inl _ => []
             | inr request => [analyze_call request]
             end)
  /\ (forall request_body,
        length (provider_calls (post_analyze py model request_body w).2)
        <= length (provider_calls w) + 1).
Proof.
  assert (Hpost : forall request_body,
            provider_calls (post_analyze py model request_body w).2
            = provider_calls w
              ++ match validate_AnalysisRequest request_body with
                 | inl _ => []
                 | inr request => [analyze_call request]
                 end).
  { intros request_body.
    destruct (validate_AnalysisRequest request_body) as [errors|request] eqn:Hv.
    - rewrite (post_analyze_invalid _ _ _ _ _ Hv). simpl.
      rewrite app_nil_r. reflexivity.
    - apply post_analyze_calls, Hv. }
  repeat split.
  - intros request. rewrite analyze_unstructured_data_run.
    pose proof (analyze_try_world py model request w) as Hw.
    destruct (analyze_try py model request w) as [[response|e] w'];
      simpl in Hw; subst w'; reflexivity.
  - exact Hpost.
  - intros request_body. rewrite Hpost, length_app.
    destruct (validate_AnalysisRequest request_body); simpl; lia.
Qed.

Example no_retry_after_failure :
  analyze_unstructured_data example_interpreter
    (failing_model (OtherError (u "ResourceExhausted") (u "429 quota exceeded")))
    farmer_request initial_world
  = (Raise (HTTPException 500
              (u "An internal error occurred: 429 quota exceeded")),
     {| provider_calls := [analyze_call farmer_request];
        stdout := [u "An error occurred: 429 quota exceeded"] |}).
Proof. vm_compute. reflexivity. Qed.



Example post_analyze_number_as_text :
  post_analyze example_interpreter (stub_model farmer_analysis_text)
    (JObj [(u "unstructured_text", JInt 5)]) initial_world
  = (Return
       {| status := 422;
          body :=
            JObj [(u "detail",
                    JArr [JObj [(u "type", JStr (u "string_type"));
                                (u "loc",
                                  JArr [JStr (u "body");
                                        JStr (u "unstructured_text")]);
                                (u "msg",
                                  JStr (u "Input should be a valid string"));
                                (u "input", JInt 5)]])] |},
     initial_world).
Proof. vm_compute. reflexivity. Qed.

(** ** Further properties of the service *)

(** Insertion and lookup in a dict. *)
Lemma dict_get_set_ne {A : Type} (k k' : pystr) (v : A)
    (d : list (pystr * A)) :
  k <> k' -> dict_get k' (dict_set k v d) = dict_get k' d.
Proof.
  intros Hne. induction d as [|[k0 v0] d IH]; simpl.
  - destruct (decide (k = k')); [contradiction | reflexivity].
  - destruct (decide (k0 = k)) as [->|Hk0]; simpl.
    + destruct (decide (k = k')); [contradiction | reflexivity].
    + destruct (decide (k0 = k')); [reflexivity | exact IH].
Qed.

Lemma dict_get_set_eq {A : Type} (k : pystr) (v : A) (d : list (pystr * A)) :
  dict_get k (dict_set k v d) = Some v.
Proof.
  induction d as [|[k0 v0] d IH]; simpl.
  - destruct (decide (k = k)); [reflexivity | contradiction].
  - destruct (decide (k0 = k)) as [->|Hk0]; simpl.
    + destruct (decide (k = k)); [reflexivity | contradiction].
    + destruct (decide (k0 = k)); [contradiction | exact IH].
Qed.

(** A text whose first character after the white space cannot start a JSON
    value is not decoded: [json.loads] raises at that character, as long
    as two levels are left for the error to be built. *)
Lemma json_loads_no_value (depth : nat) (t : pystr) :
  2 <= depth ->
  match skip_whitespace t with
  | [] => True
  | c :: _ => starts_value c = false
  end ->
  json_loads_within depth t
  = inl (match after_prefix [65279%N] t with
         | Some _ =>
             JSONDecodeError
               (u "Unexpected UTF-8 BOM (decode using utf-8-sig)") t 0
         | None =>
             JSONDecodeError (u "Expecting value") t
               (length t - length (skip_whitespace t))
         end).
Proof.
  intros Hdepth H. unfold json_loads_within.
  destruct (after_prefix [65279%N] t); [reflexivity|].
  assert (Hstop : scan_once (scan_fuel t) depth (skip_whitespace t)
                  = ScanStop (length (skip_whitespace t))).
  { unfold scan_fuel. cbn [scan_once].
    destruct (skip_whitespace t) as [|c s1]; [reflexivity|].
    unfold starts_value in H.
    apply orb_false_iff in H as [H Hd].
    apply bool_decide_eq_false in H.
    destruct (decide (c = 34%N)); [tauto|].
    destruct (decide (c = 123%N)); [tauto|].
    destruct (decide (c = 91%N)); [tauto|].
    assert (Hc : scan_constant (c :: s1) = None).
    { unfold scan_constant.
      assert (Hp : forall p ps,
                p <> c -> after_prefix (p :: ps) (c :: s1) = None).
      { intros p ps Hp. simpl.
        destruct (decide (p = c)); [contradiction|reflexivity]. }
      change (u "null") with (110%N :: u "ull").
      change (u "true") with (116%N :: u "rue").
      change (u "false") with (102%N :: u "alse").
      change (u "NaN") with (78%N :: u "aN").
      change (u "Infinity") with (73%N :: u "nfinity").
      change (u "-Infinity") with (45%N :: u "Infinity").
      rewrite !Hp by (intros <-; tauto). reflexivity. }
    rewrite Hc. unfold match_number.
    destruct (decide (c = 45%N)); [tauto|].
    destruct (decide (c = 48%N)) as [->|]; [discriminate|].
    rewrite Hd. reflexivity. }
  unfold decode, raw_decode. rewrite Hstop.
  destruct depth as [|[|depth]]; [lia | lia | reflexivity].
Qed.





(** X4: two requests with the same prompt that agree on the context, or
    on the text, are the same request: for a known context the prompt
    determines the text, and the other way round. *)
Theorem prompt_determines_request (r1 r2 : AnalysisRequest) :
  prompt r1 = prompt r2 ->
  context r1 = context r2 \/ unstructured_text r1 = unstructured_text r2 ->
  r1 = r2.
Proof.
  destruct r1 as [t1 c1], r2 as [t2 c2].
  unfold prompt; cbn [context unstructured_text].
  intros H Hor. repeat apply app_inv_head in H.
  destruct Hor as [->| ->].
  - repeat apply app_inv_head in H.
    apply app_inv_tail in H. subst. reflexivity.
  - apply app_inv_tail in H. subst. reflexivity.
Qed.

Lemma prompt_determines_request_witness : farmer_request = farmer_request.
Proof.
  apply (prompt_determines_request farmer_request farmer_request eq_refl).
  left. reflexivity.
Defined.

(** X5: the prompt is the template, 1195 characters, with the context and
    the text inserted whole: nothing is cut or padded. *)
Theorem prompt_length (request : AnalysisRequest) :
  length (prompt request)
  = 1195 + length (context request) + length (unstructured_text request).
Proof.
  unfold prompt. rewrite !length_app.
  vm_compute (length nl).
  vm_compute (length (json_dumps no_float_repr JSON_OUTPUT_SCHEMA)).
  repeat match goal with
  | |- context [length (u ?s)] =>
      let n := eval vm_compute in (length (u s)) in
      change (length (u s)) with n
  end.
  lia.
Qed.

(** X6: the text is not escaped, so it can stand for a part of the
    template: for every context [c] and text [t] there is a text ending
    in [t] which, sent with the context [c], gives the very prompt of [t]
    with another context. *)
Theorem prompt_text_forges_context (c t : pystr) :
  exists forged c',
    c' <> c
    /\ prompt {| unstructured_text := forged ++ t; context := c |}
       = prompt {| unstructured_text := t; context := c' |}.
Proof.
  set (middle :=
    u "'." ++ nl
    ++ u "        Your task is to act as an expert financial analyst. Extract key information, identify risks, and provide actionable recommendations."
    ++ nl
    ++ u "        " ++ nl
    ++ u "        Please provide your analysis strictly in the following JSON format:"
    ++ nl
    ++ u "        " ++ json_dumps no_float_repr JSON_OUTPUT_SCHEMA ++ nl
    ++ nl
    ++ u "        Here is the text to analyze:" ++ nl
    ++ u "        ---" ++ nl
    ++ u "        ").
  exists middle, (c ++ middle). split.
  - intros H. apply (f_equal length) in H. rewrite length_app in H.
    assert (0 < length middle) by (vm_compute; lia). lia.
  - unfold prompt, middle; cbn [context unstructured_text].
    rewrite <- !app_assoc. reflexivity.
Qed.

(** X8: when requests are served one after the other, every request gets
    a response and the provider receives, in the order of the requests,
    exactly one call for each body that passes validation, with the prompt
    of that request. *)
Theorem serve_calls_in_order (py : Interpreter) (model : GenerativeModel)
    (bodies : list pyjson) (w : World) :
  exists responses w',
    serve py model bodies w = (Return responses, w')
    /\ length responses = length bodies
    /\ provider_calls w'
       = provider_calls w ++ map analyze_call (valid_requests bodies).
Proof.
  revert w. induction bodies as [|request_body bodies IH]; intros w.
  - exists [], w. simpl. rewrite app_nil_r. auto.
  - cbn [serve]. unfold mbind, M_bind.
    pose proof (post_analyze_calls py model request_body) as Hcalls.
    pose proof (post_analyze_invalid py model request_body) as Hinv.
    pose proof (post_analyze_run py model request_body) as Hrun.
    cbn [valid_requests].
    destruct (validate_AnalysisRequest request_body) as [errors|request].
    + rewrite (Hinv errors w eq_refl).
      destruct (IH w) as (responses & w' & -> & Hlen & Hc).
      do 2 eexists. split; [reflexivity|]. simpl. split; [lia | exact Hc].
    + specialize (Hcalls request w eq_refl).
      specialize (Hrun request w eq_refl).
      destruct (post_analyze py model request_body w) as [[response|e] w1] eqn:Hp.
      * destruct (IH w1) as (responses & w' & -> & Hlen & Hc).
        do 2 eexists. split; [reflexivity|]. simpl. split; [lia|].
        rewrite Hc. simpl in Hcalls. rewrite Hcalls, <- app_assoc.
        reflexivity.
      * exfalso.
        destruct (analyze_try py model request w) as [[r|e'] w2];
          discriminate.
Qed.

(** X9: the service keeps no state of its own: with a provider that
    ignores its history, the response to a body is the same in every
    world. *)
Theorem stateless_provider_stateless_service (py : Interpreter) (model : GenerativeModel)
    (request_body : pyjson) (w1 w2 : World) :
  (forall history history' prompt config,
     model history prompt config = model history' prompt config) ->
  (post_analyze py model request_body w1).1
  = (post_analyze py model request_body w2).1.
Proof.
  intros Hm.
  destruct (validate_AnalysisRequest request_body) as [errors|request] eqn:Hv.
  - rewrite !(post_analyze_invalid _ _ _ _ _ Hv). reflexivity.
  - rewrite !(post_analyze_run _ _ _ _ _ Hv), !analyze_try_run.
    unfold provider_text.
    rewrite (Hm (provider_calls w1) (provider_calls w2)).
    destruct (model _ _ _) as [e|response]; [reflexivity|].
    destruct (text response) as [e|t]; [reflexivity|].
    destruct (json_loads_within (decode_depth py) t) as [e|J];
      [reflexivity|].
    destruct (render py J); reflexivity.
Qed.

Lemma stateless_provider_stateless_service_witness :
  (post_analyze example_interpreter (stub_model farmer_analysis_text) farmer_body initial_world).1
  = (post_analyze example_interpreter (stub_model farmer_analysis_text) farmer_body
       (after_print (after_call initial_world farmer_request) (u "noise"))).1.
Proof.
  apply (stateless_provider_stateless_service example_interpreter
           (stub_model farmer_analysis_text) farmer_body initial_world
           (after_print (after_call initial_world farmer_request)
              (u "noise"))).
  reflexivity.
Defined.

Lemma validate_other_key (d : list (pystr * pyjson)) (k : pystr) (v : pyjson)
    (request : AnalysisRequest) :
  k <> u "unstructured_text" ->
  k <> u "context" ->
  validate_AnalysisRequest (JObj (dict_set k v d)) = inr request
  <-> validate_AnalysisRequest (JObj d) = inr request.
Proof.
  intros Ht Hc. rewrite !validate_AnalysisRequest_inr.
  split; intros (d' & Hd & Hget & Hctx).
  - assert (d' = dict_set k v d) as -> by congruence.
    exists d. rewrite !dict_get_set_ne in Hget, Hctx by assumption. auto.
  - assert (d' = d) as -> by congruence.
    exists (dict_set k v d). rewrite !dict_get_set_ne by assumption. auto.
Qed.

(** X10: validation looks at [unstructured_text] and [context] only: a
    body with any other key set is accepted exactly when the body without
    it is, and then gives the same request; it is rejected exactly when
    the body without it is. *)
Theorem validation_ignores_other_keys (d : list (pystr * pyjson))
    (k : pystr) (v : pyjson) :
  k <> u "unstructured_text" ->
  k <> u "context" ->
  (forall request,
     validate_AnalysisRequest (JObj (dict_set k v d)) = inr request
     <-> validate_AnalysisRequest (JObj d) = inr request)
  /\ ((exists errors,
         validate_AnalysisRequest (JObj (dict_set k v d)) = inl errors)
      <-> exists errors, validate_AnalysisRequest (JObj d) = inl errors).
Proof.
  intros Ht Hc.
  split; [intros request; apply validate_other_key; assumption|].
  destruct (validate_AnalysisRequest (JObj (dict_set k v d)))
    as [errors|request] eqn:E1;
    destruct (validate_AnalysisRequest (JObj d)) as [errors'|request'] eqn:E2.
  - split; eauto.
  - apply (validate_other_key d k v request' Ht Hc) in E2. congruence.
  - apply (validate_other_key d k v request Ht Hc) in E1. congruence.
  - split; intros [errors H]; discriminate.
Qed.

Lemma validation_ignores_other_keys_witness :
  validate_AnalysisRequest
    (JObj (dict_set (u "language") (JStr (u "hi"))
             [(u "unstructured_text",
                JStr (u "Farmer took a 50000 INR loan at 12% interest."))]))
  = inr farmer_request.
Proof.
  apply (proj2 (proj1 (validation_ignores_other_keys
                         [(u "unstructured_text",
                            JStr (u "Farmer took a 50000 INR loan at 12% interest."))]
                         (u "language") (JStr (u "hi"))
                         ltac:(vm_compute; discriminate)
                         ltac:(vm_compute; discriminate))
                 farmer_request)).
  vm_compute. reflexivity.
Defined.

(** X11: when the text of the provider, after its leading white space, is
    empty or starts with a character that cannot start a JSON value (prose,
    a Markdown fence), the handler fails with status 500; the detail gives
    [Expecting value] with the position of that character or, when the
    text starts with a byte order mark, [Unexpected UTF-8 BOM] at
    position 0.  The decoder is called with at least two levels of the
    recursion limit left, as the error takes them to be built. *)
Theorem analyze_rejects_prose (py : Interpreter) (model : GenerativeModel)
    (request : AnalysisRequest) (w : World) (response_text : pystr) :
  2 <= decode_depth py ->
  provider_text model w request = inr response_text ->
  match skip_whitespace response_text with
  | [] => True
  | c :: _ => starts_value c = false
  end ->
  (analyze_unstructured_data py model request w).1
  = Raise
      (HTTPException 500
         (u "An internal error occurred: "
          ++ str (match after_prefix [65279%N] response_text with
                  | Some _ =>
                      JSONDecodeError
                        (u "Unexpected UTF-8 BOM (decode using utf-8-sig)")
                        response_text 0
                  | None =>
                      JSONDecodeError (u "Expecting value") response_text
                        (length response_text
                         - length (skip_whitespace response_text))
                  end))).
Proof.
  intros Hdepth Hp Hv.
  rewrite analyze_unstructured_data_run, analyze_try_run, Hp.
  rewrite (json_loads_no_value _ _ Hdepth Hv). reflexivity.
Qed.

Lemma analyze_rejects_prose_witness :
  (analyze_unstructured_data example_interpreter
     (stub_model (u " ```json {} ```")) farmer_request initial_world).1
  = Raise
      (HTTPException 500
         (u "An internal error occurred: Expecting value: line 1 column 2 (char 1)")).
Proof.
  apply (analyze_rejects_prose example_interpreter
           (stub_model (u " ```json {} ```"))
           farmer_request initial_world (u " ```json {} ```"));
    [vm_compute; lia | reflexivity | vm_compute; reflexivity].
Defined.

Example analyze_rejects_byte_order_mark :
  (analyze_unstructured_data example_interpreter
     (stub_model (65279%N :: u "{}")) farmer_request initial_world).1
  = Raise
      (HTTPException 500
         (u "An internal error occurred: Unexpected UTF-8 BOM (decode using utf-8-sig): line 1 column 1 (char 0)")).
Proof. vm_compute. reflexivity. Qed.

(** X12: every prompt shows the schema as [json.dumps] writes it, and that
    text is a JSON document which [json.loads] decodes back to the
    schema. *)
Theorem prompt_shows_schema (request : AnalysisRequest) :
  exists before rest,
    prompt request
    = before ++ json_dumps no_float_repr JSON_OUTPUT_SCHEMA ++ rest
    /\ json_loads (json_dumps no_float_repr JSON_OUTPUT_SCHEMA)
       = inr (json_cast JSON_OUTPUT_SCHEMA).
Proof.
  do 2 eexists. split.
  - unfold prompt.
    rewrite !(app_assoc _ _ (json_dumps no_float_repr JSON_OUTPUT_SCHEMA ++ _)).
    reflexivity.
  - vm_compute. reflexivity.
Qed.


(** ** The decoder and white space *)

Lemma blank_cons (c : N) (ws : pystr) :
  blank (c :: ws) = true -> is_whitespace c = true /\ blank ws = true.
Proof. unfold blank; simpl. intros H. apply andb_true_iff in H. exact H. Qed.

Lemma whitespace_cases (c : N) :
  is_whitespace c = true -> (c = 32 \/ c = 9 \/ c = 10 \/ c = 13)%N.
Proof. unfold is_whitespace. apply bool_decide_eq_true. Qed.

Lemma whitespace_not_digit (c : N) :
  is_whitespace c = true -> is_digit c = false.
Proof.
  intros H. apply whitespace_cases in H.
  destruct H as [->|[->|[->| ->]]]; reflexivity.
Qed.

Lemma skip_whitespace_blank (ws : pystr) :
  blank ws = true -> skip_whitespace ws = [].
Proof.
  induction ws as [|c ws IH]; [reflexivity|].
  intros H. apply blank_cons in H as [Hc Hws]. simpl. rewrite Hc. auto.
Qed.

Lemma skip_whitespace_app_l (ws s : pystr) :
  blank ws = true -> skip_whitespace (ws ++ s) = skip_whitespace s.
Proof.
  induction ws as [|c ws IH]; [reflexivity|].
  intros H. apply blank_cons in H as [Hc Hws]. simpl. rewrite Hc. auto.
Qed.

Lemma skip_whitespace_app_r (s ws : pystr) :
  blank ws = true ->
  skip_whitespace (s ++ ws)
  = match skip_whitespace s with
    | [] => []
    | c :: r => c :: r ++ ws
    end.
Proof.
  intros Hws. induction s as [|c s IH]; simpl.
  - apply skip_whitespace_blank, Hws.
  - destruct (is_whitespace c); [exact IH | reflexivity].
Qed.

Lemma span_digits_app (s ws : pystr) :
  blank ws = true ->
  span_digits (s ++ ws) = ((span_digits s).1, (span_digits s).2 ++ ws).
Proof.
  intros Hws. induction s as [|c s IH]; simpl.
  - destruct ws as [|w ws]; [reflexivity|].
    apply blank_cons in Hws as [Hw _]. simpl.
    rewrite (whitespace_not_digit _ Hw). reflexivity.
  - destruct (is_digit c); [|reflexivity].
    rewrite IH. destruct (span_digits s); reflexivity.
Qed.

Lemma match_frac_app (s ws : pystr) :
  blank ws = true ->
  match_frac (s ++ ws) = ((match_frac s).1, (match_frac s).2 ++ ws).
Proof.
  intros Hws. unfold match_frac.
  destruct s as [|dot [|d s]]; cbn [app].
  - destruct ws as [|w [|w' ws]]; try reflexivity.
    apply blank_cons in Hws as [Hw _]. apply whitespace_cases in Hw.
    rewrite bool_decide_eq_false_2; [reflexivity|]. lia.
  - destruct ws as [|w ws]; [reflexivity|].
    apply blank_cons in Hws as [Hw _].
    rewrite (whitespace_not_digit _ Hw), andb_false_r. reflexivity.
  - destruct (bool_decide (dot = 46%N) && is_digit d); [|reflexivity].
    rewrite (span_digits_app _ _ Hws). destruct (span_digits s); reflexivity.
Qed.

Lemma match_exp_app (s ws : pystr) :
  blank ws = true ->
  match_exp (s ++ ws) = ((match_exp s).1, (match_exp s).2 ++ ws).
Proof.
  intros Hws. unfold match_exp.
  destruct s as [|e s1]; cbn [app].
  - destruct ws as [|w ws]; [reflexivity|].
    apply blank_cons in Hws as [Hw _]. apply whitespace_cases in Hw.
    rewrite bool_decide_eq_false_2; [reflexivity|]. lia.
  - destruct (bool_decide (e = 101%N \/ e = 69%N)); [|reflexivity].
    destruct s1 as [|sg s2]; cbn [app].
    + destruct ws as [|w ws]; [reflexivity|].
      pose proof Hws as Hws'.
      apply blank_cons in Hws as [Hw _].
      assert (Hsg : bool_decide (w = 45%N \/ w = 43%N) = false).
      { apply whitespace_cases in Hw. apply bool_decide_eq_false_2. lia. }
      rewrite Hsg.
      change (w :: ws) with ([] ++ w :: ws) at 1.
      rewrite (span_digits_app [] _ Hws'). reflexivity.
    + destruct (bool_decide (sg = 45%N \/ sg = 43%N)).
      * rewrite (span_digits_app _ _ Hws).
        destruct (span_digits s2) as [[|d ds] r]; reflexivity.
      * change (sg :: s2 ++ ws) with ((sg :: s2) ++ ws).
        rewrite (span_digits_app _ _ Hws).
        destruct (span_digits (sg :: s2)) as [[|d ds] r]; reflexivity.
Qed.

Ltac number_tail_app Hws H :=
  rewrite (match_frac_app _ _ Hws);
  match type of H with
  | context [match_frac ?r0] =>
      destruct (match_frac r0) as [frac r1]; cbn [fst snd];
      rewrite (match_exp_app _ _ Hws);
      destruct (match_exp r1) as [exp r2]; cbn [fst snd];
      destruct frac, exp; try destruct (_ <? _)%nat;
      inversion H; reflexivity
  end.

Lemma match_number_app (s ws : pystr) (v : pyjson) (r : pystr) :
  blank ws = true ->
  match_number s = Scanned v r ->
  match_number (s ++ ws) = Scanned v (r ++ ws).
Proof.
  intros Hws H. unfold match_number in H |- *.
  assert (Hint : forall c s2 sign,
    match (if decide (c = 48%N) then Some ([c], s2)
           else if is_digit c then
             let '(ds, r) := span_digits s2 in Some (c :: ds, r)
           else None) with
    | None => ScanStop (length s)
    | Some (digits, r0) =>
        let '(frac, r1) := match_frac r0 in
        let '(exp, r2) := match_exp r1 in
        match frac, exp with
        | [], [] =>
            if (max_str_digits <? length digits)%nat then
              ScanRaise (int_too_long (length digits))
            else
              let n := int_of_digits digits in
              Scanned (JInt (match sign with [] => n | _ => - n end)%Z) r2
        | _, _ =>
            Scanned (JFloat (float_of_literal (sign ++ digits ++ frac ++ exp))) r2
        end
    end = Scanned v r ->
    match (if decide (c = 48%N) then Some ([c], s2 ++ ws)
           else if is_digit c then
             let '(ds, r) := span_digits (s2 ++ ws) in Some (c :: ds, r)
           else None) with
    | None => ScanStop (length (s ++ ws))
    | Some (digits, r0) =>
        let '(frac, r1) := match_frac r0 in
        let '(exp, r2) := match_exp r1 in
        match frac, exp with
        | [], [] =>
            if (max_str_digits <? length digits)%nat then
              ScanRaise (int_too_long (length digits))
            else
              let n := int_of_digits digits in
              Scanned (JInt (match sign with [] => n | _ => - n end)%Z) r2
        | _, _ =>
            Scanned (JFloat (float_of_literal (sign ++ digits ++ frac ++ exp))) r2
        end
    end = Scanned v (r ++ ws)).
  { intros c s2 sign H'. destruct (decide (c = 48%N)).
    - number_tail_app Hws H'.
    - destruct (is_digit c); [|discriminate].
      rewrite (span_digits_app _ _ Hws).
      destruct (span_digits s2) as [ds r0]; cbn [fst snd] in H' |- *.
      number_tail_app Hws H'. }
  destruct s as [|c s1]; [discriminate|]. cbn [app].
  destruct (decide (c = 45%N)).
  - destruct s1 as [|c' s2]; [discriminate|]. cbn [app].
    exact (Hint c' s2 [c] H).
  - exact (Hint c s1 [] H).
Qed.

Lemma after_prefix_app_some (p s r ws : pystr) :
  after_prefix p s = Some r -> after_prefix p (s ++ ws) = Some (r ++ ws).
Proof.
  revert s. induction p as [|a p IH]; intros s H; simpl in *.
  - inversion H; reflexivity.
  - destruct s as [|c s]; [discriminate|]. simpl.
    destruct (decide (a = c)); [auto | discriminate].
Qed.

Lemma after_prefix_app_none (p s ws : pystr) :
  blank ws = true ->
  forallb (fun c => negb (is_whitespace c)) p = true ->
  after_prefix p s = None -> after_prefix p (s ++ ws) = None.
Proof.
  intros Hws. revert s. induction p as [|a p IH]; intros s Hp H; simpl in *.
  - discriminate.
  - apply andb_true_iff in Hp as [Ha Hp].
    destruct s as [|c s]; simpl.
    + destruct ws as [|w ws]; [reflexivity|].
      apply blank_cons in Hws as [Hw _].
      destruct (decide (a = w)) as [->|]; [|reflexivity].
      rewrite Hw in Ha. discriminate.
    + destruct (decide (a = c)); [auto | reflexivity].
Qed.

Lemma scan_constant_app (s ws : pystr) :
  blank ws = true ->
  scan_constant (s ++ ws)
  = match scan_constant s with
    | Some (v, r) => Some (v, r ++ ws)
    | None => None
    end.
Proof.
  intros Hws. unfold scan_constant.
  assert (Hstep : forall p,
    forallb (fun c => negb (is_whitespace c)) p = true ->
    match after_prefix p s with
    | Some r => after_prefix p (s ++ ws) = Some (r ++ ws)
    | None => after_prefix p (s ++ ws) = None
    end).
  { intros p Hp. destruct (after_prefix p s) eqn:E.
    - apply after_prefix_app_some, E.
    - apply (after_prefix_app_none _ _ _ Hws Hp E). }
  pose proof (Hstep (u "null") eq_refl) as H1.
  pose proof (Hstep (u "true") eq_refl) as H2.
  pose proof (Hstep (u "false") eq_refl) as H3.
  pose proof (Hstep (u "NaN") eq_refl) as H4.
  pose proof (Hstep (u "Infinity") eq_refl) as H5.
  pose proof (Hstep (u "-Infinity") eq_refl) as H6.
  destruct (after_prefix (u "null") s); rewrite H1; [reflexivity|].
  destruct (after_prefix (u "true") s); rewrite H2; [reflexivity|].
  destruct (after_prefix (u "false") s); rewrite H3; [reflexivity|].
  destruct (after_prefix (u "NaN") s); rewrite H4; [reflexivity|].
  destruct (after_prefix (u "Infinity") s); rewrite H5; [reflexivity|].
  destruct (after_prefix (u "-Infinity") s); rewrite H6; reflexivity.
Qed.

Lemma surrogate_test_true (c1 x e2 : N) :
  is_high_surrogate c1 && bool_decide (x = 92%N) && bool_decide (e2 = 117%N)
  = true -> x = 92%N /\ e2 = 117%N.
Proof.
  intros H. apply andb_true_iff in H as [H He].
  apply andb_true_iff in H as [_ Hx].
  apply bool_decide_eq_true in Hx, He. auto.
Qed.

Lemma scanstring_app_aux (n : nat) :
  forall (s : pystr) (b b' : nat) (acc k r ws : pystr),
    length s <= n -> blank ws = true ->
    scanstring b acc s = Scanned k r ->
    scanstring b' acc (s ++ ws) = Scanned k (r ++ ws).
Proof.
  induction n as [|n IH]; intros s b b' acc k r ws Hn Hws H.
  - destruct s; [discriminate | simpl in Hn; lia].
  - destruct s as [|c s1]; [discriminate|].
    simpl in Hn. cbn [app]. simpl in H |- *.
    destruct (decide (c = 34%N)).
    { inversion H; subst. reflexivity. }
    destruct (decide (c = 92%N)); cycle 1.
    { destruct (c <=? 31)%N; [discriminate|].
      eapply IH; [|exact Hws|exact H]; lia. }
    destruct s1 as [|esc s2]; [discriminate|].
    cbn -[scanstring hex4 is_high_surrogate is_low_surrogate backslash
          join_surrogates u] in H |- *.
    destruct (decide (esc = 117%N)); cycle 1.
    { destruct (backslash esc); [|discriminate].
      eapply IH; [|exact Hws|exact H]; simpl in Hn; lia. }
    destruct s2 as [|h1 [|h2 [|h3 [|h4 [|x s3]]]]]; try discriminate.
    cbn -[scanstring hex4 is_high_surrogate is_low_surrogate backslash
          join_surrogates u] in H |- *.
    destruct (hex4 h1 h2 h3 h4) as [c1|]; [|discriminate].
    assert (Hlen : length (x :: s3) <= n) by (simpl in Hn |- *; lia).
    destruct s3 as [|e2 [|g1 [|g2 [|g3 [|g4 [|y s4]]]]]];
      cbn -[scanstring hex4 is_high_surrogate is_low_surrogate backslash
            join_surrogates u] in H |- *.
    7:{ destruct (is_high_surrogate c1 && bool_decide (x = 92%N)
                  && bool_decide (e2 = 117%N)).
        - destruct (hex4 g1 g2 g3 g4) as [c2|]; [|discriminate].
          destruct (is_low_surrogate c2).
          + apply (IH (y :: s4) b b' _ k r ws); auto. simpl in Hlen |- *; lia.
          + apply (IH (x :: e2 :: g1 :: g2 :: g3 :: g4 :: y :: s4) b b' _ k r ws);
              auto.
        - apply (IH (x :: e2 :: g1 :: g2 :: g3 :: g4 :: y :: s4) b b' _ k r ws);
            auto. }
    all: repeat match goal with
         | |- context [match ?W with _ => _ end] =>
             is_var W; destruct W
         end;
         cbn -[scanstring hex4 is_high_surrogate is_low_surrogate backslash
               join_surrogates u];
         try match goal with
             | |- context [is_high_surrogate ?c && bool_decide (?x0 = 92%N)
                           && bool_decide (?e = 117%N)] =>
                 let Hc := fresh "Hc" in
                 destruct (is_high_surrogate c && bool_decide (x0 = 92%N)
                           && bool_decide (e = 117%N)) eqn:Hc;
                 [apply surrogate_test_true in Hc as [-> Hc];
                  exfalso;
                  first [ subst; vm_compute in H; discriminate H
                        | subst; simpl in Hws; discriminate Hws ]
                 |]
             end;
         match goal with
         | Hb : blank ?W = true, Hs : scanstring _ _ ?S = Scanned _ _ |- _ =>
             exact (IH S b b' _ k r W Hlen Hb Hs)
         end.
Qed.

Lemma scanstring_app (s : pystr) (b b' : nat) (acc k r ws : pystr) :
  blank ws = true ->
  scanstring b acc s = Scanned k r ->
  scanstring b' acc (s ++ ws) = Scanned k (r ++ ws).
Proof. apply (scanstring_app_aux (length s)); lia. Qed.

Lemma scan_empty (fuel depth : nat) :
  (forall v r, scan_once fuel depth [] <> Scanned v r)
  /\ (forall acc v r, JSONArray fuel depth acc [] <> Scanned v r)
  /\ (forall acc v r, JSONObject fuel depth acc [] <> Scanned v r).
Proof.
  repeat split; intros; intros H; apply (scan_consumes fuel depth []) in H;
    simpl in H; lia.
Qed.

Lemma skip_whitespace_app_cons (s ws : pystr) (c : N) (r : pystr) :
  blank ws = true ->
  skip_whitespace s = c :: r ->
  skip_whitespace (s ++ ws) = (c :: r) ++ ws.
Proof.
  intros Hws H. rewrite (skip_whitespace_app_r _ _ Hws), H. reflexivity.
Qed.

(** A scan that succeeds with some fuel succeeds with more. *)
Lemma scan_fuel_mono (fuel : nat) :
  forall (depth : nat) (s : pystr),
    (forall v r, scan_once fuel depth s = Scanned v r ->
                 scan_once (S fuel) depth s = Scanned v r)
    /\ (forall acc v r, JSONArray fuel depth acc s = Scanned v r ->
                        JSONArray (S fuel) depth acc s = Scanned v r)
    /\ (forall acc v r, JSONObject fuel depth acc s = Scanned v r ->
                        JSONObject (S fuel) depth acc s = Scanned v r).
Proof.
  induction fuel as [|fuel IH]; intros depth s.
  { repeat split; intros; discriminate. }
  repeat split.
  - intros v r H. destruct s as [|c s1]; [discriminate|].
    cbn [scan_once] in H.
    remember (S fuel) as fuel1 eqn:Hf. cbn [scan_once]. subst fuel1.
    destruct (decide (c = 34%N)); [exact H|].
    destruct (decide (c = 123%N)).
    { destruct depth as [|depth]; [discriminate|].
      cbv zeta in H |- *.
      destruct (after_prefix (u "}") (skip_whitespace s1)); [exact H|].
      apply (IH depth (skip_whitespace s1)), H. }
    destruct (decide (c = 91%N)).
    { destruct depth as [|depth]; [discriminate|].
      cbv zeta in H |- *.
      destruct (after_prefix (u "]") (skip_whitespace s1)); [exact H|].
      apply (IH depth (skip_whitespace s1)), H. }
    exact H.
  - intros acc v r H.
    cbn [JSONArray] in H.
    remember (S fuel) as fuel1 eqn:Hf. cbn [JSONArray]. subst fuel1.
    destruct (scan_once fuel depth s) as [value rest| | | |] eqn:E;
      try discriminate.
    apply (IH depth s) in E. rewrite E.
    cbn [scan_bind] in H |- *. cbv zeta in H |- *.
    destruct (after_prefix (u "]") (skip_whitespace rest)); [exact H|].
    destruct (after_prefix (u ",") (skip_whitespace rest)); [|exact H].
    apply (IH depth (skip_whitespace _)), H.
  - intros acc v r H.
    cbn [JSONObject] in H.
    remember (S fuel) as fuel1 eqn:Hf. cbn [JSONObject]. subst fuel1.
    destruct (after_prefix dq s) as [s1|]; [|exact H].
    destruct (errors_at depth (scanstring (length s) [] s1))
      as [key rest| | | |]; try discriminate.
    cbn [scan_bind] in H |- *. cbv zeta in H |- *.
    destruct (after_prefix (u ":") (skip_whitespace rest)) as [rest1|];
      [|exact H].
    destruct (scan_once fuel depth (skip_whitespace rest1))
      as [value rest2| | | |] eqn:E; try discriminate.
    apply (IH depth (skip_whitespace rest1)) in E. rewrite E.
    cbn [scan_bind] in H |- *. cbv zeta in H |- *.
    destruct (after_prefix (u "}") (skip_whitespace rest2)); [exact H|].
    destruct (after_prefix (u ",") (skip_whitespace rest2)); [|exact H].
    apply (IH depth (skip_whitespace _)), H.
Qed.

Lemma scan_fuel_le (fuel fuel' depth : nat) (s : pystr) (v : pyjson)
    (r : pystr) :
  fuel <= fuel' ->
  scan_once fuel depth s = Scanned v r -> scan_once fuel' depth s = Scanned v r.
Proof.
  intros Hle H. induction Hle as [|fuel' Hle IH]; [exact H|].
  apply (scan_fuel_mono fuel' depth s), IH.
Qed.

Ltac skip_cases H Hws :=
  match type of H with
  | context [skip_whitespace ?x] =>
      let E := fresh "E" in
      let c := fresh "c" in
      let r := fresh "r" in
      destruct (skip_whitespace x) as [|c r] eqn:E;
      [|rewrite (skip_whitespace_app_cons _ _ _ _ Hws E)]
  end.

Ltac prefix_app p s ws Hws :=
  let E := fresh "E" in
  destruct (after_prefix p s) eqn:E;
  [rewrite (after_prefix_app_some _ _ _ ws E)
  |rewrite (after_prefix_app_none p _ _ Hws eq_refl E)].

(** A scan that succeeds is not changed by white space added at the end
    of the input: it gives the same value and leaves the white space. *)
Lemma scan_app (fuel : nat) (ws : pystr) :
  blank ws = true ->
  forall (depth : nat) (s : pystr),
    (forall v r, scan_once fuel depth s = Scanned v r ->
                 scan_once fuel depth (s ++ ws) = Scanned v (r ++ ws))
    /\ (forall acc v r,
          JSONArray fuel depth acc s = Scanned v r ->
          JSONArray fuel depth acc (s ++ ws) = Scanned v (r ++ ws))
    /\ (forall acc v r,
          JSONObject fuel depth acc s = Scanned v r ->
          JSONObject fuel depth acc (s ++ ws) = Scanned v (r ++ ws)).
Proof.
  intros Hws. induction fuel as [|fuel IH]; intros depth s.
  { repeat split; intros; discriminate. }
  repeat split.
  - intros v r H. destruct s as [|c s1]; [discriminate|].
    cbn [scan_once app] in H |- *.
    destruct (decide (c = 34%N)).
    { destruct (scanstring (length (c :: s1)) [] s1) as [k rest| | | |] eqn:E;
        cbn [errors_at scan_bind] in H; try discriminate; try no_errmsg.
      rewrite (scanstring_app _ _ _ _ _ _ _ Hws E).
      cbn [errors_at scan_bind]. inversion H; reflexivity. }
    destruct (decide (c = 123%N)).
    { destruct depth as [|depth]; [discriminate|].
      cbv zeta in H |- *. skip_cases H Hws.
      - exfalso. cbn [after_prefix] in H.
        change (after_prefix (u "}") []) with (@None pystr) in H.
        exact (proj2 (proj2 (scan_empty fuel depth)) _ _ _ H).
      - prefix_app (u "}") (c0 :: r0) ws Hws.
        + inversion H; reflexivity.
        + apply (IH depth (c0 :: r0)), H. }
    destruct (decide (c = 91%N)).
    { destruct depth as [|depth]; [discriminate|].
      cbv zeta in H |- *. skip_cases H Hws.
      - exfalso.
        change (after_prefix (u "]") []) with (@None pystr) in H.
        exact (proj1 (proj2 (scan_empty fuel depth)) _ _ _ H).
      - prefix_app (u "]") (c0 :: r0) ws Hws.
        + inversion H; reflexivity.
        + apply (IH depth (c0 :: r0)), H. }
    change (c :: s1 ++ ws) with ((c :: s1) ++ ws).
    rewrite (scan_constant_app _ _ Hws).
    destruct (scan_constant (c :: s1)) as [[value rest]|].
    + unfold constant_at in H |- *.
      destruct value, depth; inversion H; reflexivity.
    + apply (match_number_app _ _ _ _ Hws H).
  - intros acc v r H. cbn [JSONArray] in H |- *.
    destruct (scan_once fuel depth s) as [value rest| | | |] eqn:E;
      try discriminate.
    apply (IH depth s) in E. rewrite E.
    cbn [scan_bind] in H |- *. cbv zeta in H |- *.
    skip_cases H Hws.
    { exfalso.
      change (after_prefix (u "]") []) with (@None pystr) in H.
      change (after_prefix (u ",") []) with (@None pystr) in H.
      cbv beta iota in H. no_errmsg. }
    prefix_app (u "]") (c :: r0) ws Hws.
    { inversion H; reflexivity. }
    prefix_app (u ",") (c :: r0) ws Hws; [|no_errmsg].
    skip_cases H Hws.
    { exfalso. exact (proj1 (proj2 (scan_empty fuel depth)) _ _ _ H). }
    apply (IH depth (_ :: _)), H.
  - intros acc v r H. cbn [JSONObject] in H |- *.
    prefix_app dq s ws Hws; [|no_errmsg].
    match type of H with
    | context [scanstring ?b [] ?x] =>
        destruct (scanstring b [] x) as [key rest| | | |] eqn:Ek;
        cbn [errors_at scan_bind] in H; try discriminate; try no_errmsg
    end.
    rewrite (scanstring_app _ _ _ _ _ _ _ Hws Ek).
    cbn [errors_at scan_bind]. cbv zeta in H |- *.
    skip_cases H Hws.
    { exfalso.
      change (after_prefix (u ":") []) with (@None pystr) in H.
      cbv beta iota in H. no_errmsg. }
    prefix_app (u ":") (c :: r0) ws Hws; [|no_errmsg].
    match type of H with
    | context [scan_once fuel depth (skip_whitespace ?x)] =>
        destruct (scan_once fuel depth (skip_whitespace x))
          as [value rest2| | | |] eqn:E2;
        try discriminate
    end.
    skip_cases E2 Hws.
    { exfalso. exact (proj1 (scan_empty fuel depth) _ _ E2). }
    apply (IH depth (_ :: _)) in E2. rewrite E2.
    cbn [scan_bind] in H |- *. cbv zeta in H |- *.
    skip_cases H Hws.
    { exfalso.
      change (after_prefix (u "}") []) with (@None pystr) in H.
      change (after_prefix (u ",") []) with (@None pystr) in H.
      cbv beta iota in H. no_errmsg. }
    prefix_app (u "}") (c1 :: r2) ws Hws.
    { inversion H; reflexivity. }
    prefix_app (u ",") (c1 :: r2) ws Hws; [|no_errmsg].
    skip_cases H Hws.
    { exfalso. exact (proj2 (proj2 (scan_empty fuel depth)) _ _ _ H). }
    apply (IH depth (_ :: _)), H.
Qed.

(** [json.loads] gives the same value for a document and for the
    document with white space before and after it. *)
Lemma json_loads_padded (depth : nat) (ws1 t ws2 : pystr) (J : pyjson) :
  blank ws1 = true -> blank ws2 = true ->
  json_loads_within depth t = inr J ->
  json_loads_within depth (ws1 ++ t ++ ws2) = inr J.
Proof.
  intros Hws1 Hws2 H.
  apply json_loads_within_inr in H as (Eb & rest & Es & Er).
  apply json_loads_within_inr.
  assert (Hbom : after_prefix [65279%N] (ws1 ++ t ++ ws2) = None).
  { destruct ws1 as [|w ws1]; cbn [app].
    - apply (after_prefix_app_none [65279%N] _ _ Hws2 eq_refl Eb).
    - apply blank_cons in Hws1 as [Hw _]. apply whitespace_cases in Hw.
      simpl. destruct (decide (65279%N = w)); [lia | reflexivity]. }
  split; [exact Hbom|]. exists (rest ++ ws2).
  rewrite (skip_whitespace_app_l _ _ Hws1).
  destruct (skip_whitespace t) as [|c r0] eqn:Et.
  { exfalso. exact (proj1 (scan_empty _ _) _ _ Es). }
  rewrite (skip_whitespace_app_cons _ _ _ _ Hws2 Et).
  assert (Hfuel : scan_fuel t <= scan_fuel (ws1 ++ t ++ ws2)).
  { unfold scan_fuel. rewrite !length_app. lia. }
  apply (scan_fuel_le _ _ _ _ _ _ Hfuel) in Es.
  apply (scan_app _ _ Hws2 depth (c :: r0)) in Es.
  split; [exact Es|].
  rewrite (skip_whitespace_app_r _ _ Hws2), Er. reflexivity.
Qed.

(** X14: white space around the document does not matter: when the text
    of the provider is a JSON document with blanks, tabs or line ends
    before and after it, the handler does what it does for the document
    alone: it returns the value of the document with status 200 when the
    response can be built from it, and fails on the rendering
    otherwise. *)
Theorem analyze_ignores_padding (py : Interpreter) (model : GenerativeModel)
    (request : AnalysisRequest) (w : World) (ws1 t ws2 : pystr) (J : pyjson) :
  blank ws1 = true -> blank ws2 = true ->
  json_loads_within (decode_depth py) t = inr J ->
  provider_text model w request = inr (ws1 ++ t ++ ws2) ->
  analyze_unstructured_data py model request w
  = match render py J with
    | inr _ =>
        (Return {| content := J; status_code := 200 |}, after_call w request)
    | inl e =>
        (Raise (HTTPException 500 (u "An internal error occurred: " ++ str e)),
         after_print (after_call w request) (u "An error occurred: " ++ str e))
    end.
Proof.
  intros Hws1 Hws2 HJ Hp.
  rewrite analyze_unstructured_data_run.
  rewrite (analyze_try_decoded _ _ _ _ _ _ Hp
             (json_loads_padded _ _ _ _ _ Hws1 Hws2 HJ)).
  destruct (render py J); reflexivity.
Qed.

Lemma analyze_ignores_padding_witness :
  analyze_unstructured_data example_interpreter
    (stub_model (nl ++ farmer_analysis_text ++ u " " ++ nl))
    farmer_request initial_world
  = (Return {| content := farmer_analysis; status_code := 200 |},
     after_call initial_world farmer_request).
Proof.
  apply (analyze_ignores_padding example_interpreter
           (stub_model (nl ++ farmer_analysis_text ++ u " " ++ nl))
           farmer_request initial_world nl farmer_analysis_text
           (u " " ++ nl) farmer_analysis);
    vm_compute; reflexivity.
Defined.

(** ** The keys of decoded objects *)

Lemma dict_set_keys {A : Type} (k : pystr) (v : A) (d : list (pystr * A)) :
  map fst (dict_set k v d)
  = if decide (k ∈ map fst d) then map fst d else map fst d ++ [k].
Proof.
  induction d as [|[k0 v0] d IH]; simpl.
  - destruct (decide (k ∈ [])) as [Hin|]; [inversion Hin | reflexivity].
  - destruct (decide (k0 = k)) as [->|Hne]; simpl.
    + destruct (decide (k ∈ k :: map fst d)) as [|Hn]; [reflexivity|].
      exfalso. apply Hn. left.
    + rewrite IH.
      destruct (decide (k ∈ map fst d)) as [Hin|Hnin];
        destruct (decide (k ∈ k0 :: map fst d)) as [Hin'|Hnin'];
        try reflexivity.
      * exfalso. apply Hnin'. right. exact Hin.
      * exfalso. apply list_elem_of_In in Hin'. destruct Hin' as [?|Hin'];
          [congruence|]. apply Hnin, list_elem_of_In, Hin'.
Qed.

Lemma dict_set_NoDup {A : Type} (k : pystr) (v : A) (d : list (pystr * A)) :
  NoDup (map fst d) -> NoDup (map fst (dict_set k v d)).
Proof.
  intros H. rewrite dict_set_keys.
  destruct (decide (k ∈ map fst d)); [exact H|].
  apply NoDup_app. split; [exact H|]. split.
  - intros x Hx Hk. apply list_elem_of_In in Hk. destruct Hk as [<-|[]].
    contradiction.
  - apply NoDup_singleton.
Qed.

Lemma dict_set_forallb {A : Type} (P : pystr * A -> bool) (k : pystr) (v : A)
    (d : list (pystr * A)) :
  (forall k', P (k', v) = true) ->
  forallb P d = true -> forallb P (dict_set k v d) = true.
Proof.
  intros Hv. induction d as [|[k0 v0] d IH]; simpl.
  - intros _. rewrite Hv. reflexivity.
  - intros H. apply andb_true_iff in H as [H0 Hd].
    destruct (decide (k0 = k)); simpl.
    + rewrite Hv, Hd. reflexivity.
    + rewrite H0, (IH Hd). reflexivity.
Qed.

Lemma dict_of_pairs_unique (pairs : list (pystr * pyjson)) :
  forallb (fun kv => unique_keys kv.2) pairs = true ->
  unique_keys (JObj (dict_of_pairs pairs)) = true.
Proof.
  unfold dict_of_pairs.
  assert (Hgen : forall d : list (pystr * pyjson),
    unique_keys (JObj d) = true ->
    forallb (fun kv => unique_keys kv.2) pairs = true ->
    unique_keys
      (JObj (fold_left (fun d kv => dict_set kv.1 kv.2 d) pairs d)) = true).
  { induction pairs as [|[k v] pairs IH]; intros d Hd Hp; [exact Hd|].
    simpl in Hp. apply andb_true_iff in Hp as [Hv Hp].
    cbn [fold_left]. apply IH; [|exact Hp].
    cbn [unique_keys] in Hd |- *.
    apply andb_true_iff in Hd as [Hn Hd].
    apply bool_decide_eq_true in Hn.
    apply andb_true_iff. split.
    - apply bool_decide_eq_true, dict_set_NoDup, Hn.
    - apply dict_set_forallb; [intros; exact Hv | exact Hd]. }
  intros Hp. apply Hgen; [|exact Hp].
  cbn [unique_keys map forallb]. rewrite bool_decide_eq_true_2; [reflexivity|].
  apply NoDup_nil_2.
Qed.

Lemma match_number_unique (s : pystr) (v : pyjson) (r : pystr) :
  match_number s = Scanned v r -> unique_keys v = true.
Proof.
  unfold match_number. intros H.
  repeat case_match; simplify_eq; reflexivity.
Qed.

Lemma scan_constant_unique (s : pystr) (v : pyjson) (r : pystr) :
  scan_constant s = Some (v, r) -> unique_keys v = true.
Proof.
  unfold scan_constant. intros H.
  repeat case_match; simplify_eq; reflexivity.
Qed.

Lemma forallb_rev {A : Type} (P : A -> bool) (l : list A) :
  forallb P (rev l) = forallb P l.
Proof.
  induction l as [|a l IH]; [reflexivity|].
  simpl. rewrite forallb_app, IH. simpl. rewrite andb_true_r, andb_comm.
  reflexivity.
Qed.

Lemma scan_unique (fuel : nat) :
  forall (depth : nat) (s : pystr),
    (forall v r, scan_once fuel depth s = Scanned v r -> unique_keys v = true)
    /\ (forall acc v r,
          forallb unique_keys acc = true ->
          JSONArray fuel depth acc s = Scanned v r -> unique_keys v = true)
    /\ (forall acc v r,
          forallb (fun kv => unique_keys kv.2) acc = true ->
          JSONObject fuel depth acc s = Scanned v r -> unique_keys v = true).
Proof.
  induction fuel as [|fuel IH]; intros depth s.
  { repeat split; intros; discriminate. }
  repeat split.
  - intros v r H. destruct s as [|c s1]; [discriminate|].
    cbn [scan_once] in H.
    destruct (decide (c = 34%N)).
    { destruct (errors_at depth (scanstring (length (c :: s1)) [] s1));
        try discriminate.
      inversion H; reflexivity. }
    destruct (decide (c = 123%N)).
    { destruct depth as [|depth]; [discriminate|].
      cbv zeta in H.
      destruct (after_prefix (u "}") (skip_whitespace s1)).
      - inversion H; reflexivity.
      - apply (IH depth (skip_whitespace s1)) in H; auto. }
    destruct (decide (c = 91%N)).
    { destruct depth as [|depth]; [discriminate|].
      cbv zeta in H.
      destruct (after_prefix (u "]") (skip_whitespace s1)).
      - inversion H; reflexivity.
      - apply (IH depth (skip_whitespace s1)) in H; auto. }
    destruct (scan_constant (c :: s1)) as [[value rest]|] eqn:E.
    + apply scan_constant_unique in E.
      apply constant_at_scanned in H as [-> _]. exact E.
    + apply match_number_unique in H; exact H.
  - intros acc v r Hacc H. cbn [JSONArray] in H.
    destruct (scan_once fuel depth s) as [value rest| | | |] eqn:E;
      try discriminate.
    apply (IH depth s) in E. cbn [scan_bind] in H. cbv zeta in H.
    destruct (after_prefix (u "]") (skip_whitespace rest)).
    { inversion H; subst.
      change (forallb unique_keys (rev (value :: acc)) = true).
      rewrite forallb_rev. cbn [forallb]. rewrite E, Hacc. reflexivity. }
    destruct (after_prefix (u ",") (skip_whitespace rest)); [|no_errmsg].
    apply (IH depth (skip_whitespace _)) in H; auto.
    cbn [forallb]. rewrite E, Hacc. reflexivity.
  - intros acc v r Hacc H. cbn [JSONObject] in H.
    destruct (after_prefix dq s) as [s1|]; [|no_errmsg].
    destruct (errors_at depth (scanstring (length s) [] s1))
      as [key rest| | | |]; try discriminate.
    cbn [scan_bind] in H. cbv zeta in H.
    destruct (after_prefix (u ":") (skip_whitespace rest)) as [rest1|];
      [|no_errmsg].
    destruct (scan_once fuel depth (skip_whitespace rest1))
      as [value rest2| | | |] eqn:E; try discriminate.
    apply (IH depth (skip_whitespace rest1)) in E.
    cbn [scan_bind] in H. cbv zeta in H.
    destruct (after_prefix (u "}") (skip_whitespace rest2)).
    { inversion H; subst. apply dict_of_pairs_unique.
      rewrite forallb_app, forallb_rev. cbn [forallb snd].
      rewrite E, Hacc. reflexivity. }
    destruct (after_prefix (u ",") (skip_whitespace rest2)); [|no_errmsg].
    apply (IH depth (skip_whitespace _)) in H; auto.
    cbn [forallb snd]. rewrite E, Hacc. reflexivity.
Qed.

Lemma json_loads_unique (depth : nat) (t : pystr) (J : pyjson) :
  json_loads_within depth t = inr J -> unique_keys J = true.
Proof.
  intros H. apply json_loads_within_inr in H as (_ & rest & E & _).
  exact (proj1 (scan_unique _ _ _) _ _ E).
Qed.

(** X15: in the body of a response with status 200 no object holds the
    same key twice, at any depth: where the text of the provider repeats a
    key, one value is kept. *)
Theorem response_objects_have_unique_keys (py : Interpreter)
    (model : GenerativeModel) (request_body : pyjson) (w : World)
    (J : pyjson) (w' : World) :
  post_analyze py model request_body w
  = (Return {| status := 200; body := J |}, w') ->
  unique_keys J = true.
Proof.
  intros H.
  destruct (validate_AnalysisRequest request_body) as [errors|request] eqn:Hv.
  - rewrite (post_analyze_invalid _ _ _ _ _ Hv) in H. discriminate.
  - rewrite (post_analyze_run _ _ _ _ _ Hv), analyze_try_run in H.
    destruct (provider_text model w request) as [e|t]; [discriminate|].
    destruct (json_loads_within (decode_depth py) t) as [e|J'] eqn:HJ;
      [discriminate|].
    destruct (render py J'); [discriminate|].
    inversion H; subst. apply (json_loads_unique _ _ _ HJ).
Qed.

Lemma response_objects_have_unique_keys_witness :
  unique_keys (JObj [(u "a", JInt 2); (u "b", JObj [(u "c", JNull)])] : pyjson)
  = true.
Proof.
  apply (response_objects_have_unique_keys example_interpreter
           (stub_model (jq "{'a': 1, 'b': {'c': 0, 'c': null}, 'a': 2}"))
           farmer_body initial_world
           (JObj [(u "a", JInt 2); (u "b", JObj [(u "c", JNull)])])
           (after_call initial_world farmer_request)).
  vm_compute. reflexivity.
Defined.
